(** * Electrolyzer stack and fleet supervisor

    A shallow embedding of [electrolyzer/stack.py] (class [Stack]) and of
    [electrolyzer/electrolyzer_supervisor.py] (class
    [ElectrolyzerSupervisor]), with the properties of the stack state
    machine, the degradation accumulators, the health ranking and the
    power balance of the supervisor.

    Numbers.  Python floats are idealised as exact rationals ([Q]): no
    rounding, no overflow.  Where the source relies on what IEEE arithmetic
    does on a zero divisor (the life estimators, [np.nan_to_num]) the special
    values are modelled explicitly.  Integers ([n_cells], [cycle_count]) are
    [Z]; indices and lengths are [nat]. *)

From Stdlib Require Import QArith Qminmax Qround ZArith List Bool Lia Lqa.
From Stdlib Require Import Permutation Sorted.
Import ListNotations.
Open Scope Q_scope.

(** ** Numeric helpers *)

(** [a > b] and [a < b] on floats, as booleans. *)
Definition Qgt_bool (a b : Q) : bool := negb (Qle_bool a b).
Definition Qlt_bool (a b : Q) : bool := negb (Qle_bool b a).

(** Python's [a // b] on floats. *)
Definition floordiv (a b : Q) : Q := inject_Z (Qfloor (a / b)).

(** Python's [sum]: a left fold from 0. *)
Definition Qsum (l : list Q) : Q := fold_left Qplus l 0.

(** [np.dot] of two vectors. *)
Definition Qdot (u v : list Q) : Q :=
  Qsum (map (fun p => fst p * snd p) (combine u v)).

(** [a[np.nonzero(a)]]: the non-zero samples, in order. *)
Definition nonzero_values (l : list Q) : list Q :=
  filter (fun v => negb (Qeq_bool v 0)) l.

(** Python's [max] and [min] of a non-empty list ([d] stands for the empty
    case, which the callers exclude). *)
Definition list_Qmax (d : Q) (l : list Q) : Q :=
  match l with
  | [] => d
  | x :: r => fold_left Qmax r x
  end.

Definition list_Qmin (d : Q) (l : list Q) : Q :=
  match l with
  | [] => d
  | x :: r => fold_left Qmin r x
  end.

(** The largest finite float64, [np.finfo(float).max]. *)
Definition float_max : Q := inject_Z ((2 ^ 53 - 1) * 2 ^ 971).

(** [np.nan_to_num(a / b)] for float64 operands: the quotient when [b] is not
    zero; on a zero divisor the quotient is [nan] (replaced by 0) when [a] is
    zero and an infinity (replaced by the largest float of its sign)
    otherwise. *)
Definition nan_to_num_div (a b : Q) : Q :=
  if Qeq_bool b 0 then
    if Qeq_bool a 0 then 0
    else if Qlt_bool 0 a then float_max else - float_max
  else a / b.

(** ** The cell model

    [PEMCell] and [AlkalineCell] live outside the embedded files; a stack
    only calls the two methods below. *)
Record Cell : Type := mkCell {
  calc_cell_voltage : Q -> Q -> Q;      (* current [A], temperature -> [V] *)
  calc_mass_flow_rate : Q -> Q -> Q     (* temperature, current [A] -> [kg/s] *)
}.

(** The attributes of a [Stack] that are fixed once [__attrs_post_init__]
    has run.  [electrolyzer_model] is the fitted power-to-current curve with
    [fit_params] applied; [DTSS] holds the four 1x1 matrices of the
    discretised first-order filter; [d_eol] is the end-of-life voltage
    computed from the cell model. *)
Record StackParams : Type := mkStackParams {
  dt : Q;
  temperature : Q;
  n_cells : Z;
  cell : Cell;
  electrolyzer_model : Q -> Q -> Q;     (* power [kW], temperature -> [A] *)
  stack_rating_kW : Q;
  include_degradation_penalty : bool;
  hydrogen_degradation_penalty : bool;
  d_eol : Q;
  rate_steady : Q;
  rate_fatigue : Q;
  rate_onoff : Q;
  base_turn_on_delay : Q;
  tau : Q;
  DTSS : Q * Q * Q * Q
}.

(** [self.ignore_dynamics]: set when the time step exceeds the time
    constant. *)
Definition ignore_dynamics (p : StackParams) : bool := Qgt_bool (dt p) (tau p).

(** [self.turn_on_delay]: no start-up delay for large time steps. *)
Definition turn_on_delay (p : StackParams) : Q :=
  if Qgt_bool (dt p) (2 * base_turn_on_delay p) then 0
  else base_turn_on_delay p.

(** The state of a [Stack] object.  [stack_I] is the attribute [I]. *)
#[projections(primitive)]
Record Stack : Type := mkStack {
  params : StackParams;
  uptime : Q;
  cell_voltage : Q;
  d_s : Q;
  rf_track : Q;
  fatigue_history : Q;
  hourly_counter : Q;
  hour_change : bool;
  voltage_signal : list Q;
  voltage_history : list Q;
  degradation_history : list Q;
  power_input_history : list Q;
  d_f : Q;
  cycle_count : Z;
  d_o : Q;
  V_degradation : Q;
  stack_I : Q;
  stack_on : bool;
  stack_waiting : bool;
  turn_on_time : Q;
  turn_off_time : Q;
  wait_time : Q;
  time : Q;
  stack_state : Q
}.

(** Attribute assignment, one setter per mutable attribute. *)
Definition set_uptime (v : Q) (s : Stack) : Stack :=
  mkStack (params s) v (cell_voltage s) (d_s s) (rf_track s) (fatigue_history
    s) (hourly_counter s) (hour_change s) (voltage_signal s) (voltage_history
    s) (degradation_history s) (power_input_history s) (d_f s) (cycle_count s)
    (d_o s) (V_degradation s) (stack_I s) (stack_on s) (stack_waiting s)
    (turn_on_time s) (turn_off_time s) (wait_time s) (time s) (stack_state s).

Definition set_cell_voltage (v : Q) (s : Stack) : Stack :=
  mkStack (params s) (uptime s) v (d_s s) (rf_track s) (fatigue_history s)
    (hourly_counter s) (hour_change s) (voltage_signal s) (voltage_history s)
    (degradation_history s) (power_input_history s) (d_f s) (cycle_count s)
    (d_o s) (V_degradation s) (stack_I s) (stack_on s) (stack_waiting s)
    (turn_on_time s) (turn_off_time s) (wait_time s) (time s) (stack_state s).

Definition set_d_s (v : Q) (s : Stack) : Stack :=
  mkStack (params s) (uptime s) (cell_voltage s) v (rf_track s)
    (fatigue_history s) (hourly_counter s) (hour_change s) (voltage_signal s)
    (voltage_history s) (degradation_history s) (power_input_history s) (d_f
    s) (cycle_count s) (d_o s) (V_degradation s) (stack_I s) (stack_on s)
    (stack_waiting s) (turn_on_time s) (turn_off_time s) (wait_time s) (time
    s) (stack_state s).

Definition set_rf_track (v : Q) (s : Stack) : Stack :=
  mkStack (params s) (uptime s) (cell_voltage s) (d_s s) v (fatigue_history s)
    (hourly_counter s) (hour_change s) (voltage_signal s) (voltage_history s)
    (degradation_history s) (power_input_history s) (d_f s) (cycle_count s)
    (d_o s) (V_degradation s) (stack_I s) (stack_on s) (stack_waiting s)
    (turn_on_time s) (turn_off_time s) (wait_time s) (time s) (stack_state s).

Definition set_fatigue_history (v : Q) (s : Stack) : Stack :=
  mkStack (params s) (uptime s) (cell_voltage s) (d_s s) (rf_track s) v
    (hourly_counter s) (hour_change s) (voltage_signal s) (voltage_history s)
    (degradation_history s) (power_input_history s) (d_f s) (cycle_count s)
    (d_o s) (V_degradation s) (stack_I s) (stack_on s) (stack_waiting s)
    (turn_on_time s) (turn_off_time s) (wait_time s) (time s) (stack_state s).

Definition set_hourly_counter (v : Q) (s : Stack) : Stack :=
  mkStack (params s) (uptime s) (cell_voltage s) (d_s s) (rf_track s)
    (fatigue_history s) v (hour_change s) (voltage_signal s) (voltage_history
    s) (degradation_history s) (power_input_history s) (d_f s) (cycle_count s)
    (d_o s) (V_degradation s) (stack_I s) (stack_on s) (stack_waiting s)
    (turn_on_time s) (turn_off_time s) (wait_time s) (time s) (stack_state s).

Definition set_hour_change (v : bool) (s : Stack) : Stack :=
  mkStack (params s) (uptime s) (cell_voltage s) (d_s s) (rf_track s)
    (fatigue_history s) (hourly_counter s) v (voltage_signal s)
    (voltage_history s) (degradation_history s) (power_input_history s) (d_f
    s) (cycle_count s) (d_o s) (V_degradation s) (stack_I s) (stack_on s)
    (stack_waiting s) (turn_on_time s) (turn_off_time s) (wait_time s) (time
    s) (stack_state s).

Definition set_voltage_signal (v : list Q) (s : Stack) : Stack :=
  mkStack (params s) (uptime s) (cell_voltage s) (d_s s) (rf_track s)
    (fatigue_history s) (hourly_counter s) (hour_change s) v (voltage_history
    s) (degradation_history s) (power_input_history s) (d_f s) (cycle_count s)
    (d_o s) (V_degradation s) (stack_I s) (stack_on s) (stack_waiting s)
    (turn_on_time s) (turn_off_time s) (wait_time s) (time s) (stack_state s).

Definition set_voltage_history (v : list Q) (s : Stack) : Stack :=
  mkStack (params s) (uptime s) (cell_voltage s) (d_s s) (rf_track s)
    (fatigue_history s) (hourly_counter s) (hour_change s) (voltage_signal s)
    v (degradation_history s) (power_input_history s) (d_f s) (cycle_count s)
    (d_o s) (V_degradation s) (stack_I s) (stack_on s) (stack_waiting s)
    (turn_on_time s) (turn_off_time s) (wait_time s) (time s) (stack_state s).

Definition set_degradation_history (v : list Q) (s : Stack) : Stack :=
  mkStack (params s) (uptime s) (cell_voltage s) (d_s s) (rf_track s)
    (fatigue_history s) (hourly_counter s) (hour_change s) (voltage_signal s)
    (voltage_history s) v (power_input_history s) (d_f s) (cycle_count s) (d_o
    s) (V_degradation s) (stack_I s) (stack_on s) (stack_waiting s)
    (turn_on_time s) (turn_off_time s) (wait_time s) (time s) (stack_state s).

Definition set_power_input_history (v : list Q) (s : Stack) : Stack :=
  mkStack (params s) (uptime s) (cell_voltage s) (d_s s) (rf_track s)
    (fatigue_history s) (hourly_counter s) (hour_change s) (voltage_signal s)
    (voltage_history s) (degradation_history s) v (d_f s) (cycle_count s) (d_o
    s) (V_degradation s) (stack_I s) (stack_on s) (stack_waiting s)
    (turn_on_time s) (turn_off_time s) (wait_time s) (time s) (stack_state s).

Definition set_d_f (v : Q) (s : Stack) : Stack :=
  mkStack (params s) (uptime s) (cell_voltage s) (d_s s) (rf_track s)
    (fatigue_history s) (hourly_counter s) (hour_change s) (voltage_signal s)
    (voltage_history s) (degradation_history s) (power_input_history s) v
    (cycle_count s) (d_o s) (V_degradation s) (stack_I s) (stack_on s)
    (stack_waiting s) (turn_on_time s) (turn_off_time s) (wait_time s) (time
    s) (stack_state s).

Definition set_cycle_count (v : Z) (s : Stack) : Stack :=
  mkStack (params s) (uptime s) (cell_voltage s) (d_s s) (rf_track s)
    (fatigue_history s) (hourly_counter s) (hour_change s) (voltage_signal s)
    (voltage_history s) (degradation_history s) (power_input_history s) (d_f
    s) v (d_o s) (V_degradation s) (stack_I s) (stack_on s) (stack_waiting s)
    (turn_on_time s) (turn_off_time s) (wait_time s) (time s) (stack_state s).

Definition set_d_o (v : Q) (s : Stack) : Stack :=
  mkStack (params s) (uptime s) (cell_voltage s) (d_s s) (rf_track s)
    (fatigue_history s) (hourly_counter s) (hour_change s) (voltage_signal s)
    (voltage_history s) (degradation_history s) (power_input_history s) (d_f
    s) (cycle_count s) v (V_degradation s) (stack_I s) (stack_on s)
    (stack_waiting s) (turn_on_time s) (turn_off_time s) (wait_time s) (time
    s) (stack_state s).

Definition set_V_degradation (v : Q) (s : Stack) : Stack :=
  mkStack (params s) (uptime s) (cell_voltage s) (d_s s) (rf_track s)
    (fatigue_history s) (hourly_counter s) (hour_change s) (voltage_signal s)
    (voltage_history s) (degradation_history s) (power_input_history s) (d_f
    s) (cycle_count s) (d_o s) v (stack_I s) (stack_on s) (stack_waiting s)
    (turn_on_time s) (turn_off_time s) (wait_time s) (time s) (stack_state s).

Definition set_stack_I (v : Q) (s : Stack) : Stack :=
  mkStack (params s) (uptime s) (cell_voltage s) (d_s s) (rf_track s)
    (fatigue_history s) (hourly_counter s) (hour_change s) (voltage_signal s)
    (voltage_history s) (degradation_history s) (power_input_history s) (d_f
    s) (cycle_count s) (d_o s) (V_degradation s) v (stack_on s) (stack_waiting
    s) (turn_on_time s) (turn_off_time s) (wait_time s) (time s) (stack_state
    s).

Definition set_stack_on (v : bool) (s : Stack) : Stack :=
  mkStack (params s) (uptime s) (cell_voltage s) (d_s s) (rf_track s)
    (fatigue_history s) (hourly_counter s) (hour_change s) (voltage_signal s)
    (voltage_history s) (degradation_history s) (power_input_history s) (d_f
    s) (cycle_count s) (d_o s) (V_degradation s) (stack_I s) v (stack_waiting
    s) (turn_on_time s) (turn_off_time s) (wait_time s) (time s) (stack_state
    s).

Definition set_stack_waiting (v : bool) (s : Stack) : Stack :=
  mkStack (params s) (uptime s) (cell_voltage s) (d_s s) (rf_track s)
    (fatigue_history s) (hourly_counter s) (hour_change s) (voltage_signal s)
    (voltage_history s) (degradation_history s) (power_input_history s) (d_f
    s) (cycle_count s) (d_o s) (V_degradation s) (stack_I s) (stack_on s) v
    (turn_on_time s) (turn_off_time s) (wait_time s) (time s) (stack_state s).

Definition set_turn_on_time (v : Q) (s : Stack) : Stack :=
  mkStack (params s) (uptime s) (cell_voltage s) (d_s s) (rf_track s)
    (fatigue_history s) (hourly_counter s) (hour_change s) (voltage_signal s)
    (voltage_history s) (degradation_history s) (power_input_history s) (d_f
    s) (cycle_count s) (d_o s) (V_degradation s) (stack_I s) (stack_on s)
    (stack_waiting s) v (turn_off_time s) (wait_time s) (time s) (stack_state
    s).

Definition set_turn_off_time (v : Q) (s : Stack) : Stack :=
  mkStack (params s) (uptime s) (cell_voltage s) (d_s s) (rf_track s)
    (fatigue_history s) (hourly_counter s) (hour_change s) (voltage_signal s)
    (voltage_history s) (degradation_history s) (power_input_history s) (d_f
    s) (cycle_count s) (d_o s) (V_degradation s) (stack_I s) (stack_on s)
    (stack_waiting s) (turn_on_time s) v (wait_time s) (time s) (stack_state
    s).

Definition set_wait_time (v : Q) (s : Stack) : Stack :=
  mkStack (params s) (uptime s) (cell_voltage s) (d_s s) (rf_track s)
    (fatigue_history s) (hourly_counter s) (hour_change s) (voltage_signal s)
    (voltage_history s) (degradation_history s) (power_input_history s) (d_f
    s) (cycle_count s) (d_o s) (V_degradation s) (stack_I s) (stack_on s)
    (stack_waiting s) (turn_on_time s) (turn_off_time s) v (time s)
    (stack_state s).

Definition set_time (v : Q) (s : Stack) : Stack :=
  mkStack (params s) (uptime s) (cell_voltage s) (d_s s) (rf_track s)
    (fatigue_history s) (hourly_counter s) (hour_change s) (voltage_signal s)
    (voltage_history s) (degradation_history s) (power_input_history s) (d_f
    s) (cycle_count s) (d_o s) (V_degradation s) (stack_I s) (stack_on s)
    (stack_waiting s) (turn_on_time s) (turn_off_time s) (wait_time s) v
    (stack_state s).

Definition set_stack_state (v : Q) (s : Stack) : Stack :=
  mkStack (params s) (uptime s) (cell_voltage s) (d_s s) (rf_track s)
    (fatigue_history s) (hourly_counter s) (hour_change s) (voltage_signal s)
    (voltage_history s) (degradation_history s) (power_input_history s) (d_f
    s) (cycle_count s) (d_o s) (V_degradation s) (stack_I s) (stack_on s)
    (stack_waiting s) (turn_on_time s) (turn_off_time s) (wait_time s) (time
    s) v.

(** The object after [__init__] and [__attrs_post_init__]. *)
Definition new_stack (p : StackParams) : Stack :=
  let turn_on_time0 := 0 in
  let turn_off_time0 := - turn_on_delay p in
  {| params := p;
     uptime := 0; cell_voltage := 0; d_s := 0; rf_track := 0;
     fatigue_history := 0; hourly_counter := 0; hour_change := false;
     voltage_signal := []; voltage_history := [];
     degradation_history := []; power_input_history := [];
     d_f := 0; cycle_count := 0%Z; d_o := 0; V_degradation := 0;
     stack_I := 0; stack_on := false; stack_waiting := false;
     turn_on_time := turn_on_time0;
     turn_off_time := turn_off_time0;
     wait_time := Qmin (turn_on_time0 - turn_off_time0) (turn_on_delay p);
     time := 0; stack_state := 0 |}.

(** ** The operating-state machine *)

(** [Stack.update_status]: a waiting stack is truly on once it has waited
    long enough. *)
Definition update_status (s : Stack) : Stack :=
  if stack_on s then s
  else if stack_waiting s then
    if Qle_bool (turn_on_time s + wait_time s) (time s)
    then set_stack_on true (set_stack_waiting false s)
    else s
  else s.

(** [Stack.turn_stack_off]. *)
Definition turn_stack_off (s : Stack) : Stack :=
  if stack_on s || stack_waiting s then
    let s := set_turn_off_time (time s) s in
    let s := set_stack_on false s in
    let s := set_stack_waiting false s in
    let s := set_cycle_count (cycle_count s + 1)%Z s in
    set_wait_time
      (Qmax 0 (wait_time s - (turn_off_time s - turn_on_time s))) s
  else s.

(** [Stack.turn_stack_on]. *)
Definition turn_stack_on (s : Stack) : Stack :=
  if stack_on s then s
  else
    let s := if negb (stack_waiting s) then set_turn_on_time (time s) s
             else s in
    let s := set_stack_waiting true s in
    set_wait_time
      (Qmin (wait_time s + (turn_on_time s - turn_off_time s))
            (turn_on_delay (params s))) s.

(** On or waiting: the modes in which [run_stack] updates the
    degradation. *)
Definition powered (s : Stack) : bool := stack_on s || stack_waiting s.

(** The On and Waiting flags are not both set. *)
Definition exclusive (s : Stack) : Prop :=
  stack_on s && stack_waiting s = false.

(** ** Current, power and dynamics *)

(** [Stack.calc_stack_power]: [V = V or cell.calc_cell_voltage(...)], so a
    missing or zero [V] falls back to the cell model.  Result in kW. *)
Definition calc_stack_power (s : Stack) (Idc : Q) (V : option Q) : Q :=
  let p := params s in
  let V_model := calc_cell_voltage (cell p) Idc (temperature p) in
  let V' := match V with
            | Some v => if Qeq_bool v 0 then V_model else v
            | None => V_model
            end in
  Idc * V' * inject_Z (n_cells p) / 1000.

(** [Stack.run_power_deg_penalty]: current and cell voltage for [P_in]. *)
Definition run_power_deg_penalty (s : Stack) (P_in : Q) : Q * Q :=
  let p := params s in
  let I_stack := electrolyzer_model p (P_in / 1000) (temperature p) in
  let V_cell := calc_cell_voltage (cell p) I_stack (temperature p) in
  (I_stack, V_cell).

(** [Stack.run_h2_deg_penalty]: the efficiency drop scales the current. *)
Definition run_h2_deg_penalty (s : Stack) (P_in : Q) : Q * Q :=
  let p := params s in
  let I_nom := electrolyzer_model p (P_in / 1000) (temperature p) in
  let V_cell := calc_cell_voltage (cell p) I_nom (temperature p) in
  let eff_mult := nan_to_num_div (V_cell + V_degradation s) V_cell in
  let I_stack := nan_to_num_div I_nom eff_mult in
  (I_stack, V_cell).

(** [Stack.update_dynamics]: the first-order filter on the mass flow rate;
    returns [(next_state, H2_mfr_actual)]. *)
Definition update_dynamics (s : Stack) (H2_mfr_ss x_k : Q) : Q * Q :=
  if ignore_dynamics (params s) then (stack_state s, H2_mfr_ss)
  else
    let '(A, B, C, D) := DTSS (params s) in
    (A * x_k + B * H2_mfr_ss, C * x_k + D * H2_mfr_ss).

(** ** Degradation *)

(** [Stack.calc_steady_degradation]. *)
Definition calc_steady_degradation (s : Stack) : Q * Stack :=
  let d := d_s s + rate_steady (params s) * cell_voltage s * dt (params s) in
  (d, set_d_s d s).

(** [Stack.calc_onoff_degradation]. *)
Definition calc_onoff_degradation (s : Stack) : Q * Stack :=
  let d := rate_onoff (params s) * inject_Z (cycle_count s) in
  (d, set_d_o d s).

(** The test of [update_degradation] on the hour's samples: there are
    non-zero samples and their peak-to-peak variation exceeds 5% of the
    peak. *)
Definition voltage_perc (nz : list Q) : Q :=
  (list_Qmax 0 nz - list_Qmin 0 nz) / list_Qmax 0 nz.

Definition fatigue_significant (signal : list Q) : bool :=
  let nz := nonzero_values signal in
  match nz with
  | [] => false
  | _ :: _ => Qgt_bool (voltage_perc nz) (5 # 100)
  end.

Section WithRainflow.

(** [rainflow.count_cycles(series, nbins=10)] of the third-party [rainflow]
    package: the list of [(range, count)] pairs of the series. *)
Variable rainflow_count_cycles : list Q -> list (Q * Q).

(** [Stack.calc_fatigue_degradation]. *)
Definition calc_fatigue_degradation (s : Stack) (signal : list Q)
  : Q * Stack :=
  let nz := nonzero_values signal in
  let rf_cycles := rainflow_count_cycles nz in
  let rf_sum := Qsum (map (fun pair => fst pair * snd pair) rf_cycles) in
  let s := set_rf_track (rf_track s + rf_sum) s in
  (rate_fatigue (params s) * rf_track s, s).

(** [Stack.update_degradation]. *)
Definition update_degradation (s : Stack) : Stack :=
  let s :=
    if hour_change s then
      if fatigue_significant (voltage_signal s) then
        let '(f, s') := calc_fatigue_degradation s (voltage_signal s) in
        set_fatigue_history f s'
      else s
    else s in
  let s := set_d_f (fatigue_history s) s in
  let '(ds, s) := calc_steady_degradation s in
  let '(d_onoff, s) := calc_onoff_degradation s in
  set_V_degradation (ds + d_onoff + fatigue_history s) s.

(** ** One time step *)

(** The end of [Stack.run_stack]: histories, clock and hour boundary. *)
Definition record_step (s : Stack) (V_cell P_in : Q) : Stack :=
  let s := set_cell_voltage V_cell s in
  let s := set_voltage_history (voltage_history s ++ [V_cell]) s in
  let s := set_degradation_history
             (degradation_history s ++ [V_degradation s]) s in
  let s := set_power_input_history (power_input_history s ++ [P_in]) s in
  let hourly_temp := hourly_counter s in
  let s := set_time (time s + dt (params s)) s in
  let s := set_hourly_counter (floordiv (time s) 3600) s in
  if negb (Qeq_bool hourly_temp (hourly_counter s)) then
    let s := set_hour_change true s in
    let s := set_voltage_signal (voltage_history s) s in
    set_voltage_history [] s
  else set_hour_change false s.

(** [Stack.run_stack]: returns [(H2_mfr, H2_mass_out, power_left)] and the
    updated stack. *)
Definition run_stack (s : Stack) (I_stack V_cell P_in : Q)
  : (Q * Q * Q) * Stack :=
  let p := params s in
  if stack_on s then
    let s := set_stack_I I_stack s in
    let V_cell := if include_degradation_penalty p
                  then V_cell + V_degradation s else V_cell in
    let s := update_degradation s in
    let power_left := P_in - calc_stack_power s I_stack (Some V_cell) * 1000 in
    let H2_mfr_ss :=
      calc_mass_flow_rate (cell p) (temperature p) I_stack
      * inject_Z (n_cells p) in
    let '(next_state, H2_mfr) := update_dynamics s H2_mfr_ss (stack_state s) in
    let s := set_stack_state next_state s in
    let H2_mass_out := H2_mfr * dt p in
    let s := set_uptime (uptime s + dt p) s in
    ((H2_mfr, H2_mass_out, power_left), record_step s V_cell P_in)
  else
    let H2_mass_out := 0 in
    let '(next_state, H2_mfr) := update_dynamics s 0 (stack_state s) in
    let s := set_stack_state next_state s in
    if stack_waiting s then
      let s := set_uptime (uptime s + dt p) s in
      let s := set_stack_I I_stack s in
      let s := update_degradation s in
      let power_left := 0 in
      ((H2_mfr, H2_mass_out, power_left), record_step s V_cell P_in)
    else
      let power_left := P_in in
      let V_cell := 0 in
      ((H2_mfr, H2_mass_out, power_left), record_step s V_cell P_in).

(** [Stack.run]. *)
Definition run (s : Stack) (P_in : Q) : (Q * Q * Q) * Stack :=
  let s := update_status s in
  let '(I_stack, V_cell) :=
    if hydrogen_degradation_penalty (params s)
    then run_h2_deg_penalty s P_in
    else run_power_deg_penalty s P_in in
  run_stack s I_stack V_cell P_in.

End WithRainflow.

(** ** Exceptions

    Supervisor code indexes arrays and divides; the faults it can raise are
    results of the model.  A float64 division by zero in numpy does not
    raise: it warns and yields [inf] or [nan]; the model reports it as
    [NumpyDivideByZero], since no number is produced. *)
Inductive error : Type :=
  | IndexError
  | ZeroDivisionError
  | NumpyDivideByZero
  | ValueError.

Inductive result (A : Type) : Type :=
  | Ok (a : A)
  | Err (e : error).
Arguments Ok {A} a.
Arguments Err {A} e.

Definition bind {A B : Type} (r : result A) (k : A -> result B) : result B :=
  match r with
  | Ok a => k a
  | Err e => Err e
  end.

Notation "x <- r ;; k" := (bind r (fun x => k))
  (at level 61, r at next level, right associativity).
Notation "' p <- r ;; k" := (bind r (fun p => k))
  (at level 61, p pattern, r at next level, right associativity).

(** [l[i]] for an index in [range(len(l))]. *)
Definition list_get {A : Type} (l : list A) (i : nat) : result A :=
  match nth_error l i with
  | Some x => Ok x
  | None => Err IndexError
  end.

(** The list with position [i] replaced (unchanged when out of range). *)
Fixpoint list_update {A : Type} (l : list A) (i : nat) (v : A) : list A :=
  match l, i with
  | [], _ => []
  | _ :: r, O => v :: r
  | x :: r, S i' => x :: list_update r i' v
  end.

(** [l[i] = v]. *)
Definition list_set {A : Type} (l : list A) (i : nat) (v : A)
  : result (list A) :=
  if (i <? length l)%nat then Ok (list_update l i v) else Err IndexError.

(** A Python index that may be negative: [-1] is the last position. *)
Definition py_index (len : nat) (i : Z) : result nat :=
  if (0 <=? i)%Z then
    if (i <? Z.of_nat len)%Z then Ok (Z.to_nat i) else Err IndexError
  else
    if (- Z.of_nat len <=? i)%Z then Ok (Z.to_nat (Z.of_nat len + i))
    else Err IndexError.

(** [for i in idx: s = body(i, s)], stopping at the first fault. *)
Fixpoint for_each {S : Type} (idx : list nat) (body : nat -> S -> result S)
  (s : S) : result S :=
  match idx with
  | [] => Ok s
  | i :: rest => s' <- body i s ;; for_each rest body s'
  end.

(** [range(n)]. *)
Definition range (n : nat) : list nat := seq 0 n.

(** [int(x)] of a float: truncation towards zero. *)
Definition Qtrunc (x : Q) : Z :=
  if Qle_bool 0 x then Qfloor x else Qceiling x.

(** Element-wise array arithmetic. *)
Definition vec_add (u v : list Q) : list Q :=
  map (fun p => fst p + snd p) (combine u v).
Definition vec_sub (u v : list Q) : list Q :=
  map (fun p => fst p - snd p) (combine u v).
Definition vec_mul (u v : list Q) : list Q :=
  map (fun p => fst p * snd p) (combine u v).
Definition vec_scale (c : Q) (v : list Q) : list Q := map (Qmult c) v.

(** [np.zeros(n)] and [np.ones(n)]. *)
Definition zeros (n : nat) : list Q := repeat 0 n.
Definition ones (n : nat) : list Q := repeat 1 n.

(** ** Health ranking *)

(** [np.nonzero(a)[0]] after an element-wise test: the positions, in
    ascending order, whose entry passes [f]. *)
Definition indices_where (f : Q -> bool) (a : list Q) : list nat :=
  filter (fun i => f (nth i a 0)) (range (length a)).

(** Insertion sort for a boolean order. *)
Fixpoint insert_sorted {A : Type} (leb : A -> A -> bool) (x : A)
  (l : list A) : list A :=
  match l with
  | [] => [x]
  | y :: r => if leb x y then x :: y :: r else y :: insert_sorted leb x r
  end.

Fixpoint insertion_sort {A : Type} (leb : A -> A -> bool) (l : list A)
  : list A :=
  match l with
  | [] => []
  | x :: r => insert_sorted leb x (insertion_sort leb r)
  end.

(** The order of a stable argsort: by value, equal values by position. *)
Definition key_index_leb (ds : list Q) (i j : nat) : bool :=
  Qlt_bool (nth i ds 0) (nth j ds 0)
  || (Qeq_bool (nth i ds 0) (nth j ds 0) && (i <=? j)%nat).

(** [np.argsort(ds)], as the stable sort: numpy's default sort kind leaves
    the order of equal values open; the model fixes it to index order
    (what [kind="stable"] and the insertion sort used for short arrays
    give). *)
Definition argsort (ds : list Q) : list nat :=
  insertion_sort (key_index_leb ds) (range (length ds)).

(** [a[idx]] for an index array: one lookup per index. *)
Fixpoint take {A : Type} (a : list A) (idx : list nat) : result (list A) :=
  match idx with
  | [] => Ok []
  | i :: rest =>
      x <- list_get a i ;;
      xs <- take a rest ;;
      Ok (x :: xs)
  end.

(** [a[idx] = v] for an index array. *)
Fixpoint assign_all (a : list Q) (idx : list nat) (v : Q)
  : result (list Q) :=
  match idx with
  | [] => Ok a
  | i :: rest => a' <- list_set a i v ;; assign_all a' rest v
  end.

(** [ElectrolyzerSupervisor.get_healthiest_inactive]. *)
Definition get_healthiest_inactive (active deg_state : list Q)
  (n_activate : nat) : result (list Q) :=
  let inact := indices_where (fun a => negb (Qeq_bool (a - 1) 0)) active in
  ds <- take deg_state inact ;;
  let deg_inds := argsort ds in
  let temp := zeros (length active) in
  chosen <- take inact (firstn n_activate deg_inds) ;;
  assign_all temp chosen 1.

(** [ElectrolyzerSupervisor.get_illest_active]. *)
Definition get_illest_active (active deg_state : list Q)
  (n_deactivate : nat) : result (list Q) :=
  let act := indices_where (fun a => negb (Qeq_bool a 0)) active in
  ds <- take deg_state act ;;
  let deg_inds := rev (argsort ds) in
  let temp := ones (length active) in
  chosen <- take act (firstn n_deactivate deg_inds) ;;
  assign_all temp chosen 0.








(** ** Life estimates

    The estimators divide by [frac_of_life_used], which is zero for a stack
    without degradation, so what a zero divisor does matters.  [d_eol] comes
    out of the cell model, which decides whether the quotients are Python
    floats (division by zero raises [ZeroDivisionError]) or numpy float64
    values (division by zero yields [inf] or [nan]).  Both are modelled.
    [Inf] stands for an infinity of either sign. *)
Inductive float : Type :=
  | Fin (q : Q)
  | Inf
  | NaN.

Inductive division : Type :=
  | PythonFloat
  | NumpyFloat64.

(** [a / b]. *)
Definition float_div (mode : division) (a b : float) : result float :=
  match a, b with
  | NaN, _ => Ok NaN
  | _, NaN => Ok NaN
  | Inf, Inf => Ok NaN
  | Fin _, Inf => Ok (Fin 0)
  | Inf, Fin y =>
      if Qeq_bool y 0 then
        match mode with
        | PythonFloat => Err ZeroDivisionError
        | NumpyFloat64 => Ok Inf
        end
      else Ok Inf
  | Fin x, Fin y =>
      if Qeq_bool y 0 then
        match mode with
        | PythonFloat => Err ZeroDivisionError
        | NumpyFloat64 => Ok (if Qeq_bool x 0 then NaN else Inf)
        end
      else Ok (Fin (x / y))
  end.

(** [a * b]. *)
Definition float_mul (a b : float) : float :=
  match a, b with
  | NaN, _ => NaN
  | _, NaN => NaN
  | Inf, Inf => Inf
  | Inf, Fin y => if Qeq_bool y 0 then NaN else Inf
  | Fin x, Inf => if Qeq_bool x 0 then NaN else Inf
  | Fin x, Fin y => Fin (x * y)
  end.

(** [(1 / frac_of_life_used) * (seconds / 3600)], the body shared by the two
    estimators. *)
Definition estimate_life (mode : division) (s : Stack) (seconds : Q)
  : result float :=
  frac_of_life_used <-
    float_div mode (Fin (V_degradation s)) (Fin (d_eol (params s))) ;;
  inverse <- float_div mode (Fin 1) frac_of_life_used ;;
  hours <- float_div mode (Fin seconds) (Fin 3600) ;;
  Ok (float_mul inverse hours).

(** [Stack.estimate_time_until_replacement]: hours, from the time the stack
    has existed. *)
Definition estimate_time_until_replacement (mode : division) (s : Stack)
  : result float :=
  estimate_life mode s (time s).

(** [Stack.estimate_stack_life]: hours, from the time it has operated. *)
Definition estimate_stack_life (mode : division) (s : Stack)
  : result float :=
  estimate_life mode s (uptime s).

(** A defined sentinel: zero or an infinity. *)
Definition is_sentinel (r : result float) : Prop :=
  r = Ok Inf \/ exists q, r = Ok (Fin q) /\ q == 0.

(** ** The fleet supervisor *)

Module Sup.

(** The state of an [ElectrolyzerSupervisor].  The stacks are [Stack]
    objects.  The [*_store] lists, which only log each step for plotting,
    and the attributes of the two sequential policies are left out. *)
#[projections(primitive)]
Record Supervisor : Type := mkSupervisor {
  n_stacks : nat;
  stack_rating_kW : Q;
  stack_rating : Q;
  stack_min_power : Q;
  active : list Q;
  waiting : list Q;
  stack_rotation : list nat;
  stacks_on : Z;
  stacks_waiting : Z;
  stacks_waiting_vec : list Q;
  deg_state : list Q;
  stacks : list Stack
}.

Definition set_active (v : list Q) (s : Supervisor) : Supervisor :=
  mkSupervisor (n_stacks s) (stack_rating_kW s) (stack_rating s)
    (stack_min_power s) v (waiting s) (stack_rotation s) (stacks_on s)
    (stacks_waiting s) (stacks_waiting_vec s) (deg_state s) (stacks s).

Definition set_waiting (v : list Q) (s : Supervisor) : Supervisor :=
  mkSupervisor (n_stacks s) (stack_rating_kW s) (stack_rating s)
    (stack_min_power s) (active s) v (stack_rotation s) (stacks_on s)
    (stacks_waiting s) (stacks_waiting_vec s) (deg_state s) (stacks s).

Definition set_stack_rotation (v : list nat) (s : Supervisor) : Supervisor :=
  mkSupervisor (n_stacks s) (stack_rating_kW s) (stack_rating s)
    (stack_min_power s) (active s) (waiting s) v (stacks_on s)
    (stacks_waiting s) (stacks_waiting_vec s) (deg_state s) (stacks s).

Definition set_stacks_on (v : Z) (s : Supervisor) : Supervisor :=
  mkSupervisor (n_stacks s) (stack_rating_kW s) (stack_rating s)
    (stack_min_power s) (active s) (waiting s) (stack_rotation s) v
    (stacks_waiting s) (stacks_waiting_vec s) (deg_state s) (stacks s).

Definition set_stacks_waiting (v : Z) (s : Supervisor) : Supervisor :=
  mkSupervisor (n_stacks s) (stack_rating_kW s) (stack_rating s)
    (stack_min_power s) (active s) (waiting s) (stack_rotation s) (stacks_on
    s) v (stacks_waiting_vec s) (deg_state s) (stacks s).

Definition set_stacks_waiting_vec (v : list Q) (s : Supervisor) : Supervisor :=
  mkSupervisor (n_stacks s) (stack_rating_kW s) (stack_rating s)
    (stack_min_power s) (active s) (waiting s) (stack_rotation s) (stacks_on
    s) (stacks_waiting s) v (deg_state s) (stacks s).

Definition set_deg_state (v : list Q) (s : Supervisor) : Supervisor :=
  mkSupervisor (n_stacks s) (stack_rating_kW s) (stack_rating s)
    (stack_min_power s) (active s) (waiting s) (stack_rotation s) (stacks_on
    s) (stacks_waiting s) (stacks_waiting_vec s) v (stacks s).

Definition set_stacks (v : list Stack) (s : Supervisor) : Supervisor :=
  mkSupervisor (n_stacks s) (stack_rating_kW s) (stack_rating s)
    (stack_min_power s) (active s) (waiting s) (stack_rotation s) (stacks_on
    s) (stacks_waiting s) (stacks_waiting_vec s) (deg_state s) v.

(** [ElectrolyzerSupervisor.__init__]: every stack built from the same
    parameters, all inactive. *)
Definition new_supervisor (n : nat) (rating_kW : Q) (p : StackParams)
  : Supervisor :=
  {| n_stacks := n;
     stack_rating_kW := rating_kW;
     stack_rating := rating_kW * 1000;
     stack_min_power := (10 / 100) * (rating_kW * 1000);
     active := zeros n;
     waiting := zeros n;
     stack_rotation := range n;
     stacks_on := 0%Z;
     stacks_waiting := 0%Z;
     stacks_waiting_vec := zeros n;
     deg_state := zeros n;
     stacks := repeat (new_stack p) n |}.

(** [self.stacks[i].method()] for a method that only changes the stack. *)
Definition update_stack (i : nat) (f : Stack -> Stack) (sup : Supervisor)
  : result Supervisor :=
  st <- list_get (stacks sup) i ;;
  Ok (set_stacks (list_update (stacks sup) i (f st)) sup).

(** [ElectrolyzerSupervisor.turn_off_stack]. *)
Definition turn_off_stack (off_stack : nat) (sup : Supervisor)
  : result Supervisor :=
  a <- list_set (active sup) off_stack 0 ;;
  let sup := set_active a sup in
  w <- list_set (waiting sup) off_stack 0 ;;
  let sup := set_waiting w sup in
  update_stack off_stack turn_stack_off sup.

(** [ElectrolyzerSupervisor.turn_on_stack]. *)
Definition turn_on_stack (on_stack : nat) (sup : Supervisor)
  : result Supervisor :=
  sup <- update_stack on_stack turn_stack_on sup ;;
  w <- list_set (waiting sup) on_stack 1 ;;
  Ok (set_waiting w sup).

(** *** Power sharing with rotation *)

(** [sum(self.active + self.waiting)]. *)
Definition active_plus_waiting (sup : Supervisor) : Q :=
  Qsum (vec_add (active sup) (waiting sup)).

(** The search [while self.active[self.stack_rotation[ij]] > 0: ij += 1]
    over the rotation entries from position [ij] on: the first entry whose
    stack is not active; running off the list is an [IndexError]. *)
Fixpoint first_not_active (act : list Q) (rotation_from_ij : list nat)
  : result nat :=
  match rotation_from_ij with
  | [] => Err IndexError
  | r :: rest =>
      a <- list_get act r ;;
      if Qgt_bool a 0 then first_not_active act rest else Ok r
  end.

(** The guarded division at the start of [power_sharing_rotation]:
    [P_indv], the even share before stacks are added or shed. *)
Definition psr_initial_share (power_in : Q) (sup : Supervisor) : result Q :=
  if Qeq_bool (active_plus_waiting sup) 0 then
    if (n_stacks sup =? 0)%nat then Err NumpyDivideByZero
    else Ok (1 * power_in / inject_Z (Z.of_nat (n_stacks sup)))
  else Ok (1 * power_in / active_plus_waiting sup).

(** The add and shed phase of [power_sharing_rotation]. *)
Definition psr_add_shed (power_in : Q) (sup : Supervisor)
  : result Supervisor :=
  P_indv <- psr_initial_share power_in sup ;;
  let P_indv_kW := P_indv / 1000 in
  half <- (if Qeq_bool (stack_rating sup / 2) 0 then Err ZeroDivisionError
           else Ok (stack_rating sup / 2)) ;;
  let stacks_supported :=
    Qmin (floordiv power_in half) (inject_Z (Z.of_nat (n_stacks sup))) in
  let diff := Qtrunc (stacks_supported - active_plus_waiting sup) in
  sup <-
    (if (0 <? diff)%Z then
       if (1 <? diff)%Z || Qgt_bool P_indv_kW ((8 # 10) * stack_rating_kW sup)
       then
         if Qeq_bool (Qsum (waiting sup)) 0
            && negb (Qeq_bool (Qsum (active sup))
                              (inject_Z (Z.of_nat (n_stacks sup))))
         then
           for_each (range (Z.to_nat diff))
             (fun i sup =>
                on_stack <- first_not_active (active sup)
                              (skipn i (stack_rotation sup)) ;;
                turn_on_stack on_stack sup)
             sup
         else Ok sup
       else Ok sup
     else Ok sup) ;;
  if (diff <? 0)%Z then
    if Qlt_bool P_indv_kW ((2 # 10) * stack_rating_kW sup) then
      if Qgt_bool (Qsum (active sup)) 0 then
        match stack_rotation sup with
        | [] => Err IndexError
        | first :: rest =>
            sup <- turn_off_stack first sup ;;
            Ok (set_stack_rotation (rest ++ [first]) sup)
        end
      else Ok sup
    else Ok sup
  else Ok sup.

(** The final allocation of [power_sharing_rotation]: [power_in] divided by
    the number of active plus waiting stacks, with no test of the divisor,
    then capped at the rating. *)
Definition psr_allocate (power_in : Q) (sup : Supervisor)
  : result (list Q * Q) :=
  new_stack_power <-
    (if Qeq_bool (active_plus_waiting sup) 0 then Err NumpyDivideByZero
     else Ok (map (fun one => one * power_in / active_plus_waiting sup)
                  (ones (n_stacks sup)))) ;;
  first <- list_get new_stack_power 0 ;;
  if Qgt_bool (first / 1000) (stack_rating_kW sup) then
    let curtailed_wind :=
      (first - stack_rating_kW sup * 1000) * inject_Z (stacks_on sup) in
    Ok (map (fun one => one * (stack_rating_kW sup * 1000))
            (ones (n_stacks sup)),
        curtailed_wind)
  else Ok (new_stack_power, 0).

(** [ElectrolyzerSupervisor.power_sharing_rotation]. *)
Definition power_sharing_rotation (power_in : Q) (sup : Supervisor)
  : result (list Q * Q * Supervisor) :=
  sup <- psr_add_shed power_in sup ;;
  '(new_stack_power, curtailed_wind) <- psr_allocate power_in sup ;;
  Ok (new_stack_power, curtailed_wind, sup).

(** *** Even split, eager *)

(** [ElectrolyzerSupervisor.distribute_power_equal_eager]. *)
Definition distribute_power_equal_eager (power_in : Q) (sup : Supervisor)
  : result (list Q * Supervisor) :=
  ratio <- (if Qeq_bool (stack_min_power sup) 0 then Err ZeroDivisionError
            else Ok (power_in / stack_min_power sup)) ;;
  let n_active := Z.min (Z.of_nat (n_stacks sup)) (Qfloor ratio) in
  let P_i := if (0 <? n_active)%Z
             then Qmin (power_in / inject_Z n_active) (stack_rating sup)
             else 0 in
  let total := Qsum (active sup) in
  sup <-
    (if Qeq_bool (inject_Z n_active) total then Ok sup
     else if Qgt_bool (inject_Z n_active) total then
       let diff := Qtrunc (inject_Z n_active - total) in
       temp <- get_healthiest_inactive (active sup) (deg_state sup)
                 (Z.to_nat diff) ;;
       Ok (set_active (vec_add (active sup) temp) sup)
     else if Qlt_bool (inject_Z n_active) total then
       let diff := Qtrunc (total - inject_Z n_active) in
       temp <- get_illest_active (active sup) (deg_state sup)
                 (Z.to_nat diff) ;;
       Ok (set_active (vec_mul (active sup) temp) sup)
     else Ok sup) ;;
  Ok (vec_scale P_i (active sup), sup).

(** *** Baseline *)

(** The loop of [baseline_controller] that hands the remaining power to the
    stacks in index order; the state is [(P_indv, p_avail)]. *)
Definition baseline_fill (sup : Supervisor) (i : nat) (st : list Q * Q)
  : result (list Q * Q) :=
  let '(P_indv, p_avail) := st in
  let room := stack_rating sup - stack_min_power sup in
  p_i <- list_get P_indv i ;;
  if Qle_bool room p_avail then
    Ok (list_update P_indv i (p_i + room), p_avail - room)
  else if Qlt_bool p_avail room then
    Ok (list_update P_indv i (p_i + p_avail), 0)
  else Ok (P_indv, p_avail).

(** [ElectrolyzerSupervisor.baseline_controller]. *)
Definition baseline_controller (power_in : Q) (sup : Supervisor)
  : result (list Q * Supervisor) :=
  let p_avail := power_in in
  let total := Qsum (active sup) in
  sup <-
    (if Qgt_bool power_in (total * stack_rating sup)
        && Qgt_bool power_in (stack_min_power sup)
     then
       let turn_on_ind :=
         Qtrunc (Qmin total (inject_Z (Z.of_nat (n_stacks sup) - 1))) in
       i <- py_index (length (stacks sup)) turn_on_ind ;;
       sup <- update_stack i turn_stack_on sup ;;
       j <- py_index (length (active sup)) turn_on_ind ;;
       Ok (set_active (list_update (active sup) j 1) sup)
     else if Qlt_bool power_in (total * stack_min_power sup) then
       let turn_off_ind := Qtrunc (total - 1) in
       i <- py_index (length (stacks sup)) turn_off_ind ;;
       sup <- update_stack i turn_stack_off sup ;;
       j <- py_index (length (active sup)) turn_off_ind ;;
       Ok (set_active (list_update (active sup) j 0) sup)
     else Ok sup) ;;
  let P_indv := vec_scale (stack_min_power sup) (active sup) in
  let p_avail := p_avail - Qsum P_indv in
  '(P_indv, _) <- for_each (range (n_stacks sup)) (baseline_fill sup)
                    (P_indv, p_avail) ;;
  Ok (P_indv, sup).

(** *** One supervisor step *)

(** A dispatch policy: the allocation method selected by [control_type],
    returning [(stack_power, curtailed_wind)] and the updated supervisor,
    and whether the name of the policy contains ["deg"]. *)
Record Policy : Type := mkPolicy {
  allocate : Q -> Supervisor -> result (list Q * Q * Supervisor);
  is_deg : bool
}.

(** The policies that return only [stack_power] get [curtailed_wind = 0]. *)
Definition without_curtailment
  (f : Q -> Supervisor -> result (list Q * Supervisor))
  (power_in : Q) (sup : Supervisor) : result (list Q * Q * Supervisor) :=
  '(stack_power, sup) <- f power_in sup ;;
  Ok (stack_power, 0, sup).

Definition power_sharing_rotation_policy : Policy :=
  {| allocate := power_sharing_rotation; is_deg := false |}.

Definition even_split_eager_policy : Policy :=
  {| allocate := without_curtailment distribute_power_equal_eager;
     is_deg := true |}.

Definition baseline_policy : Policy :=
  {| allocate := without_curtailment baseline_controller; is_deg := true |}.

(** [on_or_waiting[i] = 1] for the stacks that are on or waiting. *)
Definition mark_on_or_waiting (sup : Supervisor) (i : nat)
  (on_or_waiting : list Q) : result (list Q) :=
  st <- list_get (stacks sup) i ;;
  if stack_on st || stack_waiting st then list_set on_or_waiting i 1
  else Ok on_or_waiting.

(** The body of the loop over [mismatch]: the controller wants the stack on
    (1), agrees (0) or wants it off (-1). *)
Definition resolve_mismatch (mismatch : list Q) (i : nat) (sup : Supervisor)
  : result Supervisor :=
  m <- list_get mismatch i ;;
  if Qeq_bool m 1 then update_stack i turn_stack_on sup
  else if Qeq_bool m 0 then Ok sup
  else if Qeq_bool m (-1) then update_stack i turn_stack_off sup
  else Ok sup.

(** [self.waiting[i]] follows [self.stacks[i].stack_waiting]. *)
Definition refresh_waiting (i : nat) (sup : Supervisor) : result Supervisor :=
  st <- list_get (stacks sup) i ;;
  w <- list_set (waiting sup) i (if stack_waiting st then 1 else 0) ;;
  Ok (set_waiting w sup).

(** The block of [control] under [if "deg" in self.control_type]. *)
Definition reconcile (sup : Supervisor) (on_or_waiting : list Q)
  : result (Supervisor * list Q) :=
  on_or_waiting <- for_each (range (n_stacks sup)) (mark_on_or_waiting sup)
                     on_or_waiting ;;
  let mismatch := vec_sub (active sup) on_or_waiting in
  sup <- for_each (range (length mismatch)) (resolve_mismatch mismatch) sup ;;
  sup <- for_each (range (n_stacks sup)) refresh_waiting sup ;;
  Ok (sup, on_or_waiting).

(** The local variables of the loop that steps the stacks. *)
#[projections(primitive)]
Record StepAcc : Type := mkStepAcc {
  acc_sup : Supervisor;
  H2_mass_out : Q;
  H2_mass_flow_rate : list Q;
  power_left : Q;
  on_or_waiting : list Q
}.

(** What [control] returns: [(H2_mass_out, H2_mass_flow_rate, power_left,
    curtailed_wind)]. *)
Definition Outputs : Type := (Q * list Q * Q * Q)%type.

(** Whether the stack at position [i] is on or waiting. *)
Definition stack_powered (sts : list Stack) (i : nat) : bool :=
  match nth_error sts i with
  | Some st => powered st
  | None => false
  end.

(** The stacks that [control] counts in [on_or_waiting]: on or waiting
    after their run, or, for a "deg" policy, when the reconciliation
    started. *)
Definition counted (deg : bool) (before after : list Stack) (i : nat)
  : bool :=
  (deg && stack_powered before i) || stack_powered after i.

(** The power allocated to the stacks picked by [sel]. *)
Definition allocated_where (sel : nat -> bool) (stack_power : list Q) : Q :=
  Qsum (map (fun i => if sel i then nth i stack_power 0 else 0)
            (range (length stack_power))).

Section WithRainflow.

Variable rainflow_count_cycles : list Q -> list (Q * Q).

(** The body of [for i in range(self.n_stacks)] that simulates one time
    step of stack [i]. *)
Definition step_stack (stack_power : list Q) (i : nat) (acc : StepAcc)
  : result StepAcc :=
  let sup := acc_sup acc in
  st <- list_get (stacks sup) i ;;
  P_i <- list_get stack_power i ;;
  let '((H2_mfr, H2_mass_i, power_left_i), st) :=
    run rainflow_count_cycles st P_i in
  let sup := set_stacks (list_update (stacks sup) i st) sup in
  d <- list_set (deg_state sup) i (V_degradation st) ;;
  let sup := set_deg_state d sup in
  '(sup, oow) <-
    (if stack_on st then
       let sup := set_stacks_on (stacks_on sup + 1)%Z sup in
       a <- list_set (active sup) i 1 ;;
       oow <- list_set (on_or_waiting acc) i 1 ;;
       Ok (set_active a sup, oow)
     else Ok (sup, on_or_waiting acc)) ;;
  '(sup, oow) <-
    (if stack_waiting st then
       w <- list_set (waiting sup) i 1 ;;
       wv <- list_set (stacks_waiting_vec sup) i 1 ;;
       oow <- list_set oow i 1 ;;
       Ok (set_stacks_waiting_vec wv (set_waiting w sup), oow)
     else
       w <- list_set (waiting sup) i 0 ;;
       wv <- list_set (stacks_waiting_vec sup) i 0 ;;
       Ok (set_stacks_waiting_vec wv (set_waiting w sup), oow)) ;;
  mfr <- list_set (H2_mass_flow_rate acc) i H2_mfr ;;
  Ok {| acc_sup := sup;
        H2_mass_out := H2_mass_out acc + H2_mass_i;
        H2_mass_flow_rate := mfr;
        power_left := power_left acc + power_left_i;
        on_or_waiting := oow |}.

(** [control] after the policy has produced [stack_power]: reconcile the
    stacks with the controller's belief, step every stack, and compute the
    curtailment. *)
Definition control_step (deg : bool) (power_in : Q) (stack_power : list Q)
  (sup : Supervisor) : result (Outputs * Supervisor) :=
  let on_or_waiting0 := zeros (n_stacks sup) in
  '(sup, on_or_waiting0) <-
    (if deg then reconcile sup on_or_waiting0
     else Ok (sup, on_or_waiting0)) ;;
  let sup := set_stacks_waiting 0%Z sup in
  let sup := set_stacks_on 0%Z sup in
  acc <- for_each (range (n_stacks sup)) (step_stack stack_power)
           {| acc_sup := sup;
              H2_mass_out := 0;
              H2_mass_flow_rate := zeros (n_stacks sup);
              power_left := 0;
              on_or_waiting := on_or_waiting0 |} ;;
  dot <- (if (length (on_or_waiting acc) =? length stack_power)%nat
          then Ok (Qdot (on_or_waiting acc) stack_power)
          else Err ValueError) ;;
  let curtailed_wind := Qmax 0 (power_in - dot) in
  Ok ((H2_mass_out acc, H2_mass_flow_rate acc, power_left acc,
       curtailed_wind),
      acc_sup acc).

(** [ElectrolyzerSupervisor.control]. *)
Definition control (policy : Policy) (power_in : Q) (sup : Supervisor)
  : result (Outputs * Supervisor) :=
  '(stack_power, _, sup) <- allocate policy power_in sup ;;
  control_step (is_deg policy) power_in stack_power sup.

End WithRainflow.

End Sup.

(** ** Call sequences and example stacks *)

(** Bounds on the degradation state of a stack with parameters [p]: the
    stored penalty is at most the sum of the current terms, and the fatigue
    term is at most the rate times the running rainflow total. *)
Definition degradation_bounds (p : StackParams) (s : Stack) : Prop :=
  params s = p
  /\ 0 <= cell_voltage s
  /\ 0 <= V_degradation s
  /\ V_degradation s
     <= d_s s + rate_onoff p * inject_Z (cycle_count s) + fatigue_history s
  /\ fatigue_history s <= rate_fatigue p * rf_track s.

(** A call on a stack object. *)
Inductive StackOp : Type :=
  | CallRun (P_in : Q)
  | CallUpdateStatus
  | CallTurnOn
  | CallTurnOff.

Section Calls.

Variable rainflow_count_cycles : list Q -> list (Q * Q).

Definition apply_op (s : Stack) (op : StackOp) : Stack :=
  match op with
  | CallRun P_in => snd (run rainflow_count_cycles s P_in)
  | CallUpdateStatus => update_status s
  | CallTurnOn => turn_stack_on s
  | CallTurnOff => turn_stack_off s
  end.

(** The stack after a sequence of calls, first call first. *)
Definition exec (ops : list StackOp) (s : Stack) : Stack :=
  fold_left apply_op ops s.

(** The cycle-weighted range sum that one fatigue evaluation adds to
    [rf_track]. *)
Definition rf_sum (signal : list Q) : Q :=
  Qsum (map (fun pair => fst pair * snd pair)
            (rainflow_count_cycles (nonzero_values signal))).

(** What the rainflow package returns: ranges and cycle counts, none
    negative. *)
Definition rainflow_nonneg : Prop :=
  forall series pair,
    In pair (rainflow_count_cycles series) ->
    0 <= fst pair /\ 0 <= snd pair.

(** Whether a call of [update_degradation] evaluates the fatigue term. *)
Definition fatigue_fires (s : Stack) : bool :=
  hour_change s && fatigue_significant (voltage_signal s).






(** [n] runs in a row, each with input [P_in]. *)
Definition run_n (n : nat) (P_in : Q) (s : Stack) : Stack :=
  exec (repeat (CallRun P_in) n) s.

End Calls.

(** The [power_left] component of what [run] returns. *)
Definition power_left_of (r : (Q * Q * Q) * Stack) : Q := snd (fst r).

(** A cell with a linear polarisation curve above 1.5 V at rest, and a
    linear power-to-current fit: enough to run the model on concrete
    numbers. *)
Definition example_cell : Cell :=
  {| calc_cell_voltage := fun I _ => Qmax (3 # 2) ((3 # 2) + I / 1000);
     calc_mass_flow_rate := fun _ I => I / 100000 |}.

Definition example_params (step : Q) : StackParams :=
  {| dt := step;
     temperature := 60;
     n_cells := 100;
     cell := example_cell;
     electrolyzer_model := fun P_kW _ => 5 * P_kW;
     stack_rating_kW := 500;
     include_degradation_penalty := true;
     hydrogen_degradation_penalty := true;
     d_eol := 1 # 2;
     rate_steady := 1 # 1000000;
     rate_fatigue := 1 # 1000;
     rate_onoff := 1 # 10000;
     base_turn_on_delay := 600;
     tau := 5;
     DTSS := (1 # 2, 1 # 2, 1, 0) |}.

(** The same stack with the three degradation rates set to zero. *)
Definition zero_rate_params : StackParams :=
  {| dt := 100;
     temperature := 60;
     n_cells := 100;
     cell := example_cell;
     electrolyzer_model := fun P_kW _ => 5 * P_kW;
     stack_rating_kW := 500;
     include_degradation_penalty := true;
     hydrogen_degradation_penalty := true;
     d_eol := 1 # 2;
     rate_steady := 0;
     rate_fatigue := 0;
     rate_onoff := 0;
     base_turn_on_delay := 600;
     tau := 5;
     DTSS := (1 # 2, 1 # 2, 1, 0) |}.

(** A stand-in for the rainflow count: one half cycle over the whole range
    of the series, which is what the count of a two-sample series is. *)
Definition half_cycle_rainflow (series : list Q) : list (Q * Q) :=
  match series with
  | [] => []
  | _ :: _ => [(list_Qmax 0 series - list_Qmin 0 series, 1 # 2)]
  end.

(** * Properties *)

(** ** Reading the fields of an updated stack *)

Ltac stack_simpl :=
  cbn [params uptime cell_voltage d_s rf_track fatigue_history
       hourly_counter hour_change voltage_signal voltage_history
       degradation_history power_input_history d_f cycle_count d_o
       V_degradation stack_I stack_on stack_waiting turn_on_time
       turn_off_time wait_time time stack_state
       set_uptime set_cell_voltage set_d_s set_rf_track
       set_fatigue_history set_hourly_counter set_hour_change
       set_voltage_signal set_voltage_history set_degradation_history
       set_power_input_history set_d_f set_cycle_count set_d_o
       set_V_degradation set_stack_I set_stack_on set_stack_waiting
       set_turn_on_time set_turn_off_time set_wait_time set_time
       set_stack_state fst snd] in *.

(** [update_status] only moves a waiting stack whose wait is over to on. *)
Lemma update_status_eq (s : Stack) :
  update_status s
  = let ready := negb (stack_on s) && stack_waiting s
                 && Qle_bool (turn_on_time s + wait_time s) (time s) in
    set_stack_on (stack_on s || ready)
      (set_stack_waiting (stack_waiting s && negb ready) s).
Proof.
  unfold update_status. destruct s as [p ? ? ? ? ? ? ? ? ? ? ? ? ? ? ? ? on w ton ? wt t ?].
  stack_simpl. destruct on, w; cbn [negb andb orb]; try reflexivity.
  destruct (Qle_bool (ton + wt) t); reflexivity.
Qed.

Section StackFacts.

Variable rf : list Q -> list (Q * Q).

(** [update_degradation] as a sequence of assignments. *)
Lemma update_degradation_eq (s : Stack) :
  update_degradation rf s
  = let r := if fatigue_fires s
             then rf_track s + rf_sum rf (voltage_signal s)
             else rf_track s in
    let fh := if fatigue_fires s then rate_fatigue (params s) * r
              else fatigue_history s in
    let ds := d_s s + rate_steady (params s) * cell_voltage s * dt (params s) in
    let d_onoff := rate_onoff (params s) * inject_Z (cycle_count s) in
    set_V_degradation (ds + d_onoff + fh)
      (set_d_o d_onoff
         (set_d_s ds
            (set_d_f fh (set_fatigue_history fh (set_rf_track r s))))).
Proof.
  unfold update_degradation, fatigue_fires, calc_fatigue_degradation,
    calc_steady_degradation, calc_onoff_degradation, rf_sum.
  destruct s; stack_simpl.
  destruct hour_change0; cbn [andb];
    [destruct (fatigue_significant voltage_signal0)|]; reflexivity.
Qed.

Ltac run_cases s :=
  unfold run, run_stack;
  match goal with
  | |- context [if hydrogen_degradation_penalty ?p then ?a else ?b] =>
      destruct (if hydrogen_degradation_penalty p then a else b)
        as [I_stack V_cell]
  end;
  destruct (stack_on (update_status s)) eqn:Hon;
  [ | stack_simpl ];
  match goal with
  | |- context [update_dynamics ?a ?b ?c] =>
      destruct (update_dynamics a b c) as [next_state H2_mfr]
  end;
  stack_simpl;
  [ | destruct (stack_waiting (update_status s)) eqn:Hwait ];
  stack_simpl.

Ltac run_fields s :=
  run_cases s; unfold record_step; rewrite ?update_degradation_eq;
  rewrite update_status_eq in *; stack_simpl;
  repeat match goal with
         | |- context [if negb ?b then _ else _] => destruct (negb b)
         end;
  stack_simpl.

Lemma run_params (s : Stack) (P : Q) : params (snd (run rf s P)) = params s.
Proof. run_fields s; reflexivity. Qed.

Lemma run_stack_on (s : Stack) (P : Q) :
  stack_on (snd (run rf s P)) = stack_on (update_status s).
Proof. run_fields s; congruence. Qed.

Lemma run_stack_waiting (s : Stack) (P : Q) :
  stack_waiting (snd (run rf s P)) = stack_waiting (update_status s).
Proof. run_fields s; congruence. Qed.


Lemma run_turn_on_time (s : Stack) (P : Q) :
  turn_on_time (snd (run rf s P)) = turn_on_time s.
Proof. run_fields s; reflexivity. Qed.

Lemma run_turn_off_time (s : Stack) (P : Q) :
  turn_off_time (snd (run rf s P)) = turn_off_time s.
Proof. run_fields s; reflexivity. Qed.

Lemma run_wait_time (s : Stack) (P : Q) :
  wait_time (snd (run rf s P)) = wait_time s.
Proof. run_fields s; reflexivity. Qed.

Lemma run_cycle_count (s : Stack) (P : Q) :
  cycle_count (snd (run rf s P)) = cycle_count s.
Proof. run_fields s; reflexivity. Qed.



Ltac run_degr s :=
  unfold powered; run_cases s; unfold record_step;
  rewrite ?update_degradation_eq; unfold fatigue_fires;
  rewrite update_status_eq; stack_simpl;
  repeat match goal with
         | |- context [if negb ?b then _ else _] => destruct (negb b)
         end;
  stack_simpl; cbn [orb andb]; rewrite ?orb_true_r; cbn [andb].

Lemma run_uptime (s : Stack) (P : Q) :
  uptime (snd (run rf s P))
  = if powered (update_status s) then uptime s + dt (params s)
    else uptime s.
Proof. run_degr s; reflexivity. Qed.

Lemma run_rf_track (s : Stack) (P : Q) :
  rf_track (snd (run rf s P))
  = if powered (update_status s) && fatigue_fires s
    then rf_track s + rf_sum rf (voltage_signal s)
    else rf_track s.
Proof. run_degr s; reflexivity. Qed.

Lemma run_fatigue_history (s : Stack) (P : Q) :
  fatigue_history (snd (run rf s P))
  = if powered (update_status s) && fatigue_fires s
    then rate_fatigue (params s)
         * (rf_track s + rf_sum rf (voltage_signal s))
    else fatigue_history s.
Proof.
  run_degr s; try reflexivity;
    destruct (hour_change s && fatigue_significant (voltage_signal s));
    reflexivity.
Qed.

Lemma run_d_s (s : Stack) (P : Q) :
  d_s (snd (run rf s P))
  = if powered (update_status s)
    then d_s s + rate_steady (params s) * cell_voltage s * dt (params s)
    else d_s s.
Proof. run_degr s; reflexivity. Qed.

Lemma run_V_degradation (s : Stack) (P : Q) :
  V_degradation (snd (run rf s P))
  = if powered (update_status s)
    then d_s (snd (run rf s P))
         + rate_onoff (params s) * inject_Z (cycle_count s)
         + fatigue_history (snd (run rf s P))
    else V_degradation s.
Proof. run_degr s; reflexivity. Qed.

(** What [run] hands back as [power_left] in the three modes. *)
Lemma run_power_left_waiting (s : Stack) (P : Q) :
  stack_on (update_status s) = false ->
  stack_waiting (update_status s) = true ->
  power_left_of (run rf s P) = 0.
Proof.
  intros Hon' Hw'. unfold power_left_of. run_cases s; congruence.
Qed.

Lemma run_power_left_off (s : Stack) (P : Q) :
  stack_on (update_status s) = false ->
  stack_waiting (update_status s) = false ->
  power_left_of (run rf s P) = P.
Proof.
  intros Hon' Hw'. unfold power_left_of. run_cases s; congruence.
Qed.

End StackFacts.

(** ** The operating modes *)

Section Modes.

Variable rf : list Q -> list (Q * Q).

(** A property kept by every call holds after every sequence of calls. *)
Lemma exec_invariant (Inv : Stack -> Prop) :
  (forall s op, Inv s -> Inv (apply_op rf s op)) ->
  forall ops s, Inv s -> Inv (exec rf ops s).
Proof.
  intros Hstep ops. unfold exec.
  induction ops as [|op ops IH]; intros s Hs; cbn [fold_left].
  - exact Hs.
  - apply IH, Hstep, Hs.
Qed.

Lemma exec_app (ops1 ops2 : list StackOp) (s : Stack) :
  exec rf (ops1 ++ ops2) s = exec rf ops2 (exec rf ops1 s).
Proof. unfold exec. apply fold_left_app. Qed.

Lemma update_status_exclusive (s : Stack) :
  exclusive s -> exclusive (update_status s).
Proof.
  unfold exclusive. rewrite update_status_eq. stack_simpl.
  destruct (stack_on s), (stack_waiting s); cbn; try discriminate; auto.
  destruct (Qle_bool _ _); reflexivity.
Qed.

Lemma turn_stack_off_flags (s : Stack) :
  stack_on (turn_stack_off s) = false
  /\ stack_waiting (turn_stack_off s) = false.
Proof.
  unfold turn_stack_off.
  destruct (stack_on s) eqn:Hon, (stack_waiting s) eqn:Hw;
    cbn [orb]; stack_simpl; auto.
Qed.

Lemma turn_stack_on_exclusive (s : Stack) :
  exclusive s -> exclusive (turn_stack_on s).
Proof.
  unfold exclusive, turn_stack_on. intros H.
  destruct (stack_on s) eqn:Hon.
  - rewrite ?Hon. exact H.
  - destruct (negb (stack_waiting s)); stack_simpl;
      rewrite ?Hon; reflexivity.
Qed.

Lemma apply_op_exclusive (s : Stack) (op : StackOp) :
  exclusive s -> exclusive (apply_op rf s op).
Proof.
  intros Hs. destruct op as [P| | |]; cbn [apply_op].
  - unfold exclusive. rewrite run_stack_on, run_stack_waiting.
    apply update_status_exclusive, Hs.
  - apply update_status_exclusive, Hs.
  - apply turn_stack_on_exclusive, Hs.
  - unfold exclusive.
    destruct (turn_stack_off_flags s) as [-> ->]. reflexivity.
Qed.

End Modes.

(** C9.  After construction and after every sequence of [run],
    [update_status], [turn_stack_on] and [turn_stack_off] calls, [stack_on]
    and [stack_waiting] are not both set: Off, Waiting and On exclude each
    other.  [turn_stack_on] leaves a stack that is on untouched, and
    [turn_stack_off] clears both flags. *)
Theorem stack_modes_exclusive (rf : list Q -> list (Q * Q))
  (p : StackParams) (ops : list StackOp) :
  let s := exec rf ops (new_stack p) in
  stack_on s && stack_waiting s = false
  /\ (stack_on s = true -> turn_stack_on s = s)
  /\ stack_on (turn_stack_off s) = false
  /\ stack_waiting (turn_stack_off s) = false.
Proof.
  intros s. split; [|split].
  - apply (exec_invariant rf exclusive).
    + intros s0 op. apply apply_op_exclusive.
    + reflexivity.
  - intros Hon. unfold turn_stack_on. rewrite Hon. reflexivity.
  - apply turn_stack_off_flags.
Qed.

(** ** Power reported by a waiting stack *)

(** C1 (as stated, refuted).  A stack that was just told to turn on is
    Waiting when [run] executes its step, and with 1000 W requested the
    [power_left] it returns is 0, not 1000. *)
Lemma waiting_power_left_counterexample :
  let s := turn_stack_on (new_stack (example_params 100)) in
  stack_on (update_status s) = false
  /\ stack_waiting (update_status s) = true
  /\ power_left_of (run half_cycle_rainflow s 1000) == 0
  /\ ~ power_left_of (run half_cycle_rainflow s 1000) == 1000.
Proof.
  cbv zeta. repeat split; try reflexivity.
  vm_compute. discriminate.
Qed.

(** C1 (amended).  When a stack is Waiting at the time [run] executes its
    step, the returned [power_left] is 0 for every input [P_in]: the
    requested power is reported as consumed.  Uptime grows by [dt], the
    steady term grows by [rate_steady * cell_voltage * dt], and
    [V_degradation] is the sum of the three refreshed terms. *)
Theorem waiting_run_power_left (rf : list Q -> list (Q * Q))
  (s : Stack) (P_in : Q) :
  stack_on (update_status s) = false ->
  stack_waiting (update_status s) = true ->
  let s' := snd (run rf s P_in) in
  power_left_of (run rf s P_in) = 0
  /\ uptime s' = uptime s + dt (params s)
  /\ d_s s' = d_s s + rate_steady (params s) * cell_voltage s * dt (params s)
  /\ V_degradation s'
     = d_s s' + rate_onoff (params s) * inject_Z (cycle_count s)
       + fatigue_history s'.
Proof.
  intros Hon Hw s'. subst s'.
  assert (Hp : powered (update_status s) = true)
    by (unfold powered; rewrite Hw; apply orb_true_r).
  split; [apply run_power_left_waiting; assumption|].
  rewrite run_uptime, run_V_degradation, run_d_s, Hp. auto.
Qed.

Lemma waiting_run_power_left_witness :
  let s := turn_stack_on (new_stack (example_params 100)) in
  let s' := snd (run half_cycle_rainflow s 1000) in
  power_left_of (run half_cycle_rainflow s 1000) = 0
  /\ uptime s' = uptime s + dt (params s)
  /\ d_s s' = d_s s + rate_steady (params s) * cell_voltage s * dt (params s)
  /\ V_degradation s'
     = d_s s' + rate_onoff (params s) * inject_Z (cycle_count s)
       + fatigue_history s'.
Proof.
  exact (waiting_run_power_left half_cycle_rainflow
           (turn_stack_on (new_stack (example_params 100))) 1000
           eq_refl eq_refl).
Defined.

(** ** The wait-time credit *)

Section WaitCredit.

Variable rf : list Q -> list (Q * Q).

(** Runs leave the start-up bookkeeping alone and keep a stack that is off
    off. *)
Lemma runs_keep_timers (ps : list Q) (s : Stack) :
  let s' := exec rf (map CallRun ps) s in
  params s' = params s
  /\ turn_on_time s' = turn_on_time s
  /\ turn_off_time s' = turn_off_time s
  /\ wait_time s' = wait_time s
  /\ powered s' = powered s.
Proof.
  revert s. induction ps as [|P ps IH]; intros s; cbn [map].
  - cbn. auto.
  - change (exec rf (CallRun P :: map CallRun ps) s)
      with (exec rf (map CallRun ps) (snd (run rf s P))).
    destruct (IH (snd (run rf s P))) as (Hp & Hon & Hoff & Hw & Hpw).
    cbv zeta. rewrite Hp, Hon, Hoff, Hw, Hpw.
    rewrite run_params, run_turn_on_time, run_turn_off_time, run_wait_time.
    repeat split; try reflexivity.
    unfold powered. rewrite run_stack_on, run_stack_waiting.
    rewrite update_status_eq. stack_simpl.
    destruct (stack_on s), (stack_waiting s); cbn; try reflexivity.
    destruct (Qle_bool _ _); reflexivity.
Qed.

Lemma Qmin_lt_right (a b : Q) : Qmin a b < b <-> a < b.
Proof.
  destruct (Qlt_le_dec a b) as [Hlt|Hge].
  - rewrite (Q.min_l a b) by (apply Qlt_le_weak; exact Hlt). tauto.
  - rewrite (Q.min_r a b) by exact Hge. split; intros H.
    + exfalso. apply (Qlt_irrefl b), H.
    + exfalso. apply (Qlt_irrefl b). apply Qle_lt_trans with a; assumption.
Qed.

End WaitCredit.

(** C6 (as stated, refuted).  A fresh stack with a 600 s start-up delay is
    turned on, runs 100 s (still Waiting), is turned off, stays off for
    200 s and is turned on again: the second turn-on charges the full
    delay. *)
Lemma partial_credit_counterexample :
  let s0 := new_stack (example_params 100) in
  let waiting_stack := exec half_cycle_rainflow [CallTurnOn; CallRun 1000] s0 in
  let s := exec half_cycle_rainflow
             [CallTurnOn; CallRun 1000; CallTurnOff; CallRun 0; CallRun 0;
              CallTurnOn] s0 in
  stack_waiting waiting_stack = true
  /\ stack_on waiting_stack = false
  /\ turn_on_delay (params s) == 600
  /\ wait_time s == 600
  /\ ~ wait_time s < turn_on_delay (params s).
Proof.
  cbv zeta. repeat split; try reflexivity.
  vm_compute. discriminate.
Qed.

(** C6 (amended).  For a stack that is off, take [turn_stack_on], any
    number of runs, [turn_stack_off], any number of runs, and
    [turn_stack_on] again.  The first turn-on sets the credit to
    [min(wait_time + (turn_on_time - turn_off_time), turn_on_delay)]; the
    turn-off reduces it by the time since the turn-on, floored at zero; the
    second turn-on adds back the time spent off, capped at the delay.  So
    the second wait is strictly less than the full [turn_on_delay] exactly
    when the remaining credit plus the time spent off is below the delay. *)
Theorem partial_credit (rf : list Q -> list (Q * Q)) (s0 : Stack)
  (ps1 ps2 : list Q) :
  powered s0 = false ->
  let delay := turn_on_delay (params s0) in
  let s1 := turn_stack_on s0 in
  let s2 := exec rf (map CallRun ps1) s1 in
  let s3 := turn_stack_off s2 in
  let s4 := exec rf (map CallRun ps2) s3 in
  let s5 := turn_stack_on s4 in
  wait_time s1 = Qmin (wait_time s0 + (time s0 - turn_off_time s0)) delay
  /\ wait_time s3 = Qmax 0 (wait_time s1 - (time s2 - time s0))
  /\ wait_time s5 = Qmin (wait_time s3 + (time s4 - time s2)) delay
  /\ (wait_time s5 < delay <-> wait_time s3 + (time s4 - time s2) < delay).
Proof.
  intros Hoff delay s1 s2 s3 s4 s5.
  unfold powered in Hoff. apply orb_false_iff in Hoff as [Hon Hw].
  assert (H1 : wait_time s1
               = Qmin (wait_time s0 + (time s0 - turn_off_time s0)) delay
               /\ turn_on_time s1 = time s0 /\ params s1 = params s0
               /\ powered s1 = true).
  { subst s1 delay. unfold turn_stack_on, powered. rewrite Hon, Hw.
    cbn [negb]. stack_simpl. rewrite Hon. auto. }
  destruct H1 as (Hw1 & Hton1 & Hp1 & Hpow1).
  destruct (runs_keep_timers rf ps1 s1) as (Hp2 & Hton2 & _ & Hw2 & Hpow2).
  fold s2 in Hp2, Hton2, Hw2, Hpow2.
  assert (H3 : wait_time s3 = Qmax 0 (wait_time s1 - (time s2 - time s0))
               /\ turn_off_time s3 = time s2 /\ params s3 = params s0
               /\ powered s3 = false).
  { subst s3. unfold turn_stack_off.
    rewrite Hpow1 in Hpow2. unfold powered in Hpow2. rewrite Hpow2.
    stack_simpl. rewrite Hw2, Hton2, Hton1, Hp2, Hp1.
    unfold powered. stack_simpl. auto. }
  destruct H3 as (Hw3 & Htoff3 & Hp3 & Hpow3).
  destruct (runs_keep_timers rf ps2 s3) as (Hp4 & _ & Htoff4 & Hw4 & Hpow4).
  fold s4 in Hp4, Htoff4, Hw4, Hpow4.
  assert (H5 : wait_time s5
               = Qmin (wait_time s3 + (time s4 - time s2)) delay).
  { subst s5. unfold turn_stack_on.
    rewrite Hpow3 in Hpow4. unfold powered in Hpow4.
    apply orb_false_iff in Hpow4 as [Hon4 Hwt4]. rewrite Hon4, Hwt4.
    cbn [negb]. stack_simpl. rewrite Hw4, Htoff4, Htoff3, Hp4, Hp3.
    reflexivity. }
  repeat split; try assumption.
  - rewrite H5. apply Qmin_lt_right.
  - rewrite H5. apply Qmin_lt_right.
Qed.

Lemma partial_credit_witness :
  let s0 := new_stack (example_params 100) in
  let delay := turn_on_delay (params s0) in
  let s1 := turn_stack_on s0 in
  let s2 := exec half_cycle_rainflow (map CallRun [1000]) s1 in
  let s3 := turn_stack_off s2 in
  let s4 := exec half_cycle_rainflow (map CallRun [0; 0]) s3 in
  let s5 := turn_stack_on s4 in
  wait_time s1 = Qmin (wait_time s0 + (time s0 - turn_off_time s0)) delay
  /\ wait_time s3 = Qmax 0 (wait_time s1 - (time s2 - time s0))
  /\ wait_time s5 = Qmin (wait_time s3 + (time s4 - time s2)) delay
  /\ (wait_time s5 < delay <-> wait_time s3 + (time s4 - time s2) < delay).
Proof.
  exact (partial_credit half_cycle_rainflow (new_stack (example_params 100))
           [1000] [0; 0] eq_refl).
Defined.

(** ** Degradation *)

Section Degradation.

Variable rf : list Q -> list (Q * Q).

(** The mode changes leave the degradation state alone, except that a
    turn-off that acts counts one more cycle. *)
Lemma update_status_degradation (s : Stack) :
  let s' := update_status s in
  params s' = params s /\ d_s s' = d_s s /\ rf_track s' = rf_track s
  /\ fatigue_history s' = fatigue_history s
  /\ V_degradation s' = V_degradation s
  /\ cell_voltage s' = cell_voltage s /\ cycle_count s' = cycle_count s.
Proof. cbv zeta. rewrite update_status_eq. stack_simpl. auto 10. Qed.

Lemma turn_stack_on_degradation (s : Stack) :
  let s' := turn_stack_on s in
  params s' = params s /\ d_s s' = d_s s /\ rf_track s' = rf_track s
  /\ fatigue_history s' = fatigue_history s
  /\ V_degradation s' = V_degradation s
  /\ cell_voltage s' = cell_voltage s /\ cycle_count s' = cycle_count s.
Proof.
  cbv zeta. unfold turn_stack_on.
  destruct (stack_on s); [auto 10|].
  destruct (negb (stack_waiting s)); stack_simpl; auto 10.
Qed.

Lemma turn_stack_off_degradation (s : Stack) :
  let s' := turn_stack_off s in
  params s' = params s /\ d_s s' = d_s s /\ rf_track s' = rf_track s
  /\ fatigue_history s' = fatigue_history s
  /\ V_degradation s' = V_degradation s
  /\ cell_voltage s' = cell_voltage s
  /\ cycle_count s'
     = (if powered s then cycle_count s + 1 else cycle_count s)%Z.
Proof.
  cbv zeta. unfold turn_stack_off, powered.
  destruct (stack_on s || stack_waiting s); stack_simpl; auto 10.
Qed.

(** Both ways of computing the current read the cell voltage off the cell
    model at the nominal current. *)
Lemma run_cell_voltage (s : Stack) (P : Q) :
  let p := params s in
  let V := calc_cell_voltage (cell p)
             (electrolyzer_model p (P / 1000) (temperature p))
             (temperature p) in
  cell_voltage (snd (run rf s P))
  = if stack_on (update_status s) then
      if include_degradation_penalty p then V + V_degradation s else V
    else if stack_waiting (update_status s) then V else 0.
Proof.
  cbv zeta.
  destruct (update_status_degradation s) as (Hp & _ & _ & _ & HV & _).
  cbv zeta in Hp, HV. rewrite <- Hp, <- HV.
  unfold run, run_h2_deg_penalty, run_power_deg_penalty.
  destruct (hydrogen_degradation_penalty (params (update_status s)));
    cbv zeta; unfold run_stack;
    destruct (stack_on (update_status s)); stack_simpl;
    match goal with
    | |- context [update_dynamics ?a ?b ?c] =>
        destruct (update_dynamics a b c) as [next_state H2_mfr]
    end;
    stack_simpl;
    try destruct (stack_waiting (update_status s));
    unfold record_step; stack_simpl;
    repeat match goal with
           | |- context [if negb ?b then _ else _] => destruct (negb b)
           end;
    stack_simpl; reflexivity.
Qed.

Lemma fold_left_Qplus_nonneg (l : list Q) (acc : Q) :
  0 <= acc -> Forall (fun x => 0 <= x) l -> 0 <= fold_left Qplus l acc.
Proof.
  revert acc. induction l as [|x l IH]; intros acc Hacc Hl; cbn.
  - exact Hacc.
  - inversion Hl; subst. apply IH; [|assumption].
    replace 0 with (0 + 0) by reflexivity. apply Qplus_le_compat; assumption.
Qed.

Lemma Qsum_nonneg (l : list Q) : Forall (fun x => 0 <= x) l -> 0 <= Qsum l.
Proof. apply fold_left_Qplus_nonneg. apply Qle_refl. Qed.

Lemma rf_sum_nonneg (signal : list Q) :
  rainflow_nonneg rf -> 0 <= rf_sum rf signal.
Proof.
  intros Hrf. unfold rf_sum. apply Qsum_nonneg.
  apply Forall_forall. intros x Hx. apply in_map_iff in Hx.
  destruct Hx as (pair & <- & Hin).
  destruct (Hrf _ _ Hin). apply Qmult_le_0_compat; assumption.
Qed.

End Degradation.

(** C8.  A stack built with the three degradation rates equal to zero
    reports [V_degradation == 0] after every sequence of [run],
    [update_status], [turn_stack_on] and [turn_stack_off] calls, however
    long. *)
Theorem zero_rates_zero_degradation (rf : list Q -> list (Q * Q))
  (p : StackParams) (ops : list StackOp) :
  rate_steady p == 0 -> rate_fatigue p == 0 -> rate_onoff p == 0 ->
  V_degradation (exec rf ops (new_stack p)) == 0.
Proof.
  intros Hs Hf Ho.
  set (Inv := fun s : Stack =>
                params s = p /\ d_s s == 0 /\ fatigue_history s == 0
                /\ V_degradation s == 0).
  assert (H : Inv (exec rf ops (new_stack p))); [|apply H].
  apply (exec_invariant rf Inv).
  - intros s op (Hp & Hds & Hfh & HV).
    destruct op as [P| | |]; cbn [apply_op].
    + assert (Hds' : d_s (snd (run rf s P)) == 0).
      { rewrite run_d_s. destruct (powered (update_status s)); [|exact Hds].
        rewrite Hp, Hs, Hds. ring. }
      assert (Hfh' : fatigue_history (snd (run rf s P)) == 0).
      { rewrite run_fatigue_history.
        destruct (powered (update_status s) && fatigue_fires s);
          [|exact Hfh].
        rewrite Hp, Hf. ring. }
      unfold Inv. rewrite run_params. repeat split; try assumption.
      rewrite run_V_degradation.
      destruct (powered (update_status s)); [|exact HV].
      rewrite Hds', Hfh', Hp, Ho. ring.
    + destruct (update_status_degradation s)
        as (Ep & Eds & _ & Efh & EV & _).
      cbv zeta in *. unfold Inv. rewrite Ep, Eds, Efh, EV. auto.
    + destruct (turn_stack_on_degradation s)
        as (Ep & Eds & _ & Efh & EV & _).
      cbv zeta in *. unfold Inv. rewrite Ep, Eds, Efh, EV. auto.
    + destruct (turn_stack_off_degradation s)
        as (Ep & Eds & _ & Efh & EV & _).
      cbv zeta in *. unfold Inv. rewrite Ep, Eds, Efh, EV. auto.
  - unfold Inv. cbn. repeat split; reflexivity.
Qed.

Lemma zero_rates_zero_degradation_witness :
  V_degradation
    (exec half_cycle_rainflow
       [CallTurnOn; CallRun 100000; CallTurnOff; CallTurnOn; CallRun 400000]
       (new_stack zero_rate_params)) == 0.
Proof.
  apply (zero_rates_zero_degradation half_cycle_rainflow zero_rate_params);
    reflexivity.
Defined.

Section Monotone.

Variable rf : list Q -> list (Q * Q).
Variable p : StackParams.

Hypothesis rates_nonneg :
  0 <= rate_steady p /\ 0 <= rate_fatigue p /\ 0 <= rate_onoff p.
Hypothesis dt_nonneg : 0 <= dt p.
Hypothesis voltage_nonneg :
  forall I T, 0 <= calc_cell_voltage (cell p) I T.
Hypothesis rf_nonneg : rainflow_nonneg rf.

Lemma run_monotone (s : Stack) (P : Q) :
  degradation_bounds p s ->
  V_degradation s <= V_degradation (snd (run rf s P))
  /\ degradation_bounds p (snd (run rf s P)).
Proof.
  intros (Hp & Hcv & HV0 & HV & Hfh).
  destruct rates_nonneg as (Hrs & Hrf & Hro).
  pose proof (rf_sum_nonneg rf (voltage_signal s) rf_nonneg) as Hsum.
  assert (Hsteady : 0 <= rate_steady p * cell_voltage s * dt p).
  { apply Qmult_le_0_compat; [apply Qmult_le_0_compat|]; assumption. }
  assert (Hfat : 0 <= rate_fatigue p * rf_sum rf (voltage_signal s)).
  { apply Qmult_le_0_compat; assumption. }
  assert (Hds : d_s s <= d_s (snd (run rf s P))).
  { rewrite run_d_s. destruct (powered (update_status s)).
    - rewrite Hp. lra.
    - apply Qle_refl. }
  assert (Hfh' : fatigue_history s <= fatigue_history (snd (run rf s P))
                 /\ fatigue_history (snd (run rf s P))
                    <= rate_fatigue p * rf_track (snd (run rf s P))).
  { rewrite run_fatigue_history, run_rf_track.
    destruct (powered (update_status s) && fatigue_fires s).
    - rewrite Hp. split; [|apply Qle_refl].
      rewrite Qmult_plus_distr_r. lra.
    - split; [apply Qle_refl|exact Hfh]. }
  destruct Hfh' as [Hfh1 Hfh2].
  assert (Hmono : V_degradation s <= V_degradation (snd (run rf s P))).
  { rewrite run_V_degradation. destruct (powered (update_status s)).
    - rewrite Hp. lra.
    - apply Qle_refl. }
  split; [exact Hmono|].
  unfold degradation_bounds. rewrite run_params. split; [exact Hp|].
  split.
  - pose proof (run_cell_voltage rf s P) as Hc. cbv zeta in Hc. rewrite Hc.
    rewrite Hp.
    pose proof (voltage_nonneg
                  (electrolyzer_model p (P / 1000) (temperature p))
                  (temperature p)) as Hvn.
    destruct (stack_on (update_status s));
      [destruct (include_degradation_penalty p)
      |destruct (stack_waiting (update_status s))]; lra.
  - split; [lra|]. split; [|exact Hfh2].
    rewrite run_cycle_count.
    rewrite (run_V_degradation rf s P) at 1.
    destruct (powered (update_status s)).
    + rewrite Hp. apply Qle_refl.
    + lra.
Qed.

Lemma apply_op_monotone (s : Stack) (op : StackOp) :
  degradation_bounds p s ->
  V_degradation s <= V_degradation (apply_op rf s op)
  /\ degradation_bounds p (apply_op rf s op).
Proof.
  intros Hs. destruct op as [P| | |]; cbn [apply_op].
  - apply run_monotone, Hs.
  - destruct Hs as (Hp & Hcv & HV0 & HV & Hfh).
    destruct (update_status_degradation s)
      as (Ep & Eds & Erf & Efh & EV & Ecv & Ecc).
    cbv zeta in *. unfold degradation_bounds.
    rewrite Ep, Eds, Erf, Efh, EV, Ecv, Ecc.
    split; [apply Qle_refl|auto 10].
  - destruct Hs as (Hp & Hcv & HV0 & HV & Hfh).
    destruct (turn_stack_on_degradation s)
      as (Ep & Eds & Erf & Efh & EV & Ecv & Ecc).
    cbv zeta in *. unfold degradation_bounds.
    rewrite Ep, Eds, Erf, Efh, EV, Ecv, Ecc.
    split; [apply Qle_refl|auto 10].
  - destruct Hs as (Hp & Hcv & HV0 & HV & Hfh).
    destruct rates_nonneg as (Hrs & Hrf & Hro).
    destruct (turn_stack_off_degradation s)
      as (Ep & Eds & Erf & Efh & EV & Ecv & Ecc).
    cbv zeta in *. unfold degradation_bounds.
    rewrite Ep, Eds, Erf, Efh, EV, Ecv, Ecc.
    split; [apply Qle_refl|]. repeat split; try assumption.
    destruct (powered s); [|exact HV].
    rewrite inject_Z_plus, Qmult_plus_distr_r.
    assert (0 <= rate_onoff p * inject_Z 1) by (apply Qmult_le_0_compat;
      [assumption|discriminate]).
    lra.
Qed.

Lemma new_stack_bounds : degradation_bounds p (new_stack p).
Proof.
  unfold degradation_bounds. cbn.
  repeat split; try reflexivity; try discriminate.
  - rewrite Qmult_0_r. discriminate.
  - rewrite Qmult_0_r. discriminate.
Qed.

Lemma reachable_bounds (ops : list StackOp) :
  degradation_bounds p (exec rf ops (new_stack p)).
Proof.
  apply (exec_invariant rf (degradation_bounds p)).
  - intros s op Hs. apply apply_op_monotone, Hs.
  - apply new_stack_bounds.
Qed.

(** C3.  With non-negative rate constants, a non-negative time step, cell
    voltages that are never negative and the non-negative cycle counts of
    rainflow, no call decreases [V_degradation]: after any sequence of
    calls on a new stack, one more [run], [update_status], [turn_stack_on]
    or [turn_stack_off] leaves it at least as large. *)
Theorem degradation_monotone (ops : list StackOp) (op : StackOp) :
  V_degradation (exec rf ops (new_stack p))
  <= V_degradation (exec rf (ops ++ [op]) (new_stack p)).
Proof.
  rewrite exec_app. cbn [exec fold_left].
  apply apply_op_monotone, reachable_bounds.
Qed.

End Monotone.

Lemma half_cycle_rainflow_nonneg : rainflow_nonneg half_cycle_rainflow.
Proof.
  intros series pair Hin. unfold half_cycle_rainflow in Hin.
  destruct series as [|x r]; [contradiction|].
  destruct Hin as [<-|[]]. cbn [fst snd]. split; [|discriminate].
  cbn [list_Qmax list_Qmin].
  assert (Hmax : forall l a, a <= fold_left Qmax l a).
  { induction l as [|y l IH]; intros a; cbn; [apply Qle_refl|].
    apply Qle_trans with (Qmax a y); [apply Q.le_max_l|apply IH]. }
  assert (Hmin : forall l a, fold_left Qmin l a <= a).
  { induction l as [|y l IH]; intros a; cbn; [apply Qle_refl|].
    apply Qle_trans with (Qmin a y); [apply IH|apply Q.le_min_l]. }
  pose proof (Hmax r x). pose proof (Hmin r x). lra.
Qed.

Lemma degradation_monotone_witness :
  V_degradation
    (exec half_cycle_rainflow [CallTurnOn; CallRun 100000; CallRun 400000]
       (new_stack (example_params 1800)))
  <= V_degradation
       (exec half_cycle_rainflow
          ([CallTurnOn; CallRun 100000; CallRun 400000] ++ [CallRun 400000])
          (new_stack (example_params 1800))).
Proof.
  apply (degradation_monotone half_cycle_rainflow (example_params 1800)).
  - cbn. repeat split; discriminate.
  - discriminate.
  - intros I T. cbn [example_params cell example_cell calc_cell_voltage].
    apply Qle_trans with (3 # 2); [discriminate|apply Q.le_max_l].
  - apply half_cycle_rainflow_nonneg.
Defined.

(** ** When fatigue is evaluated *)

Section FatigueTiming.

Variable rf : list Q -> list (Q * Q).



Lemma Qeq_bool_refl (x : Q) : Qeq_bool x x = true.
Proof. apply Qeq_bool_iff. reflexivity. Qed.



End FatigueTiming.



(** ** The life estimators on a stack without degradation *)

(** C7 (as stated, refuted).  On a new stack ([V_degradation = 0], no time
    elapsed) both estimators compute [(1 / 0) * 0]: with Python floats the
    division raises [ZeroDivisionError], with numpy float64 values the
    result is [nan]; neither is zero or an infinity. *)
Lemma life_estimate_counterexample :
  let s := new_stack (example_params 100) in
  V_degradation s == 0
  /\ estimate_time_until_replacement PythonFloat s = Err ZeroDivisionError
  /\ estimate_stack_life PythonFloat s = Err ZeroDivisionError
  /\ estimate_time_until_replacement NumpyFloat64 s = Ok NaN
  /\ estimate_stack_life NumpyFloat64 s = Ok NaN
  /\ ~ is_sentinel (estimate_time_until_replacement PythonFloat s)
  /\ ~ is_sentinel (estimate_time_until_replacement NumpyFloat64 s)
  /\ ~ is_sentinel (estimate_stack_life PythonFloat s)
  /\ ~ is_sentinel (estimate_stack_life NumpyFloat64 s).
Proof.
  cbv zeta. repeat split; try reflexivity;
    intros [H|(q & H & _)]; vm_compute in H; discriminate.
Qed.

Lemma estimate_life_zero_degradation (mode : division) (s : Stack)
  (seconds : Q) :
  V_degradation s == 0 ->
  estimate_life mode s seconds
  = match mode with
    | PythonFloat => Err ZeroDivisionError
    | NumpyFloat64 =>
        Ok (if Qeq_bool (d_eol (params s)) 0 then NaN
            else if Qeq_bool (seconds / 3600) 0 then NaN else Inf)
    end.
Proof.
  intros HV. apply Qeq_bool_iff in HV.
  unfold estimate_life. cbn [float_div]. rewrite HV.
  destruct (Qeq_bool (d_eol (params s)) 0) eqn:Hd.
  - destruct mode; reflexivity.
  - assert (Hq : Qeq_bool (V_degradation s / d_eol (params s)) 0 = true).
    { apply Qeq_bool_iff. apply Qeq_bool_iff in HV. rewrite HV.
      unfold Qdiv. apply Qmult_0_l. }
    cbn [bind float_div]. rewrite Hq.
    destruct mode; cbn [bind float_div float_mul Qeq_bool]; reflexivity.
Qed.

(** C7 (amended).  The estimators have no guard for a zero
    [V_degradation].  On such a stack, Python float division raises
    [ZeroDivisionError]; numpy float64 division returns an infinity when
    [d_eol] is not zero and the elapsed time (for
    [estimate_time_until_replacement]) or the uptime (for
    [estimate_stack_life]) is not zero, and [nan] otherwise. *)
Theorem life_estimate_zero_degradation (s : Stack) :
  V_degradation s == 0 ->
  estimate_time_until_replacement PythonFloat s = Err ZeroDivisionError
  /\ estimate_stack_life PythonFloat s = Err ZeroDivisionError
  /\ estimate_time_until_replacement NumpyFloat64 s
     = Ok (if Qeq_bool (d_eol (params s)) 0 then NaN
           else if Qeq_bool (time s / 3600) 0 then NaN else Inf)
  /\ estimate_stack_life NumpyFloat64 s
     = Ok (if Qeq_bool (d_eol (params s)) 0 then NaN
           else if Qeq_bool (uptime s / 3600) 0 then NaN else Inf).
Proof.
  intros HV. unfold estimate_time_until_replacement, estimate_stack_life.
  repeat split;
    rewrite (estimate_life_zero_degradation _ _ _ HV); reflexivity.
Qed.

Lemma life_estimate_zero_degradation_witness :
  let s := snd (run half_cycle_rainflow (new_stack zero_rate_params) 0) in
  estimate_time_until_replacement PythonFloat s = Err ZeroDivisionError
  /\ estimate_stack_life PythonFloat s = Err ZeroDivisionError
  /\ estimate_time_until_replacement NumpyFloat64 s
     = Ok (if Qeq_bool (d_eol (params s)) 0 then NaN
           else if Qeq_bool (time s / 3600) 0 then NaN else Inf)
  /\ estimate_stack_life NumpyFloat64 s
     = Ok (if Qeq_bool (d_eol (params s)) 0 then NaN
           else if Qeq_bool (uptime s / 3600) 0 then NaN else Inf).
Proof.
  apply (life_estimate_zero_degradation
           (snd (run half_cycle_rainflow (new_stack zero_rate_params) 0))).
  reflexivity.
Defined.

(** ** The final division of power sharing with rotation *)








(** ** Health ranking *)

Section Sorting.

Context {A : Type} (leb : A -> A -> bool).

Hypothesis leb_total : forall x y, leb x y = true \/ leb y x = true.
Hypothesis leb_trans :
  forall x y z, leb x y = true -> leb y z = true -> leb x z = true.





End Sorting.



















Lemma list_update_length {A : Type} (l : list A) (i : nat) (v : A) :
  length (list_update l i v) = length l.
Proof.
  revert i. induction l as [|x l IH]; intros [|i]; cbn; auto.
Qed.

Lemma list_update_nth_same {A : Type} (l : list A) (i : nat) (v d : A) :
  (i < length l)%nat -> nth i (list_update l i v) d = v.
Proof.
  revert i. induction l as [|x l IH]; intros [|i] H; cbn in *;
    try lia; [reflexivity|]. apply IH. lia.
Qed.

Lemma list_update_nth_other {A : Type} (l : list A) (i j : nat) (v d : A) :
  i <> j -> nth j (list_update l i v) d = nth j l d.
Proof.
  revert i j. induction l as [|x l IH]; intros [|i] [|j] H; cbn;
    try reflexivity; try lia. apply IH. lia.
Qed.





Section Ranking.

(** The candidates in ascending order, the array they index, and an order
    of the candidate positions, of which the first [k] are taken. *)
Variables (cand : list nat) (deg_state : list Q) (order : list nat)
          (k : nat).

Hypothesis cand_sorted : StronglySorted lt cand.
Hypothesis order_NoDup : NoDup order.
Hypothesis order_In : forall a, In a order <-> (a < length cand)%nat.
Hypothesis order_length : length order = length cand.

Let chosen : list nat := map (fun a => nth a cand 0%nat) (firstn k order).







End Ranking.


Lemma nth_zeros (n i : nat) : nth i (zeros n) 0 = 0.
Proof.
  unfold zeros. revert i. induction n as [|n IH]; intros [|i]; cbn; auto.
Qed.








(** ** The power balance of the supervisor *)

Ltac inv_bind H :=
  match type of H with
  | bind ?e _ = Ok _ =>
      let E := fresh "E" in
      destruct e eqn:E; cbn [bind] in H; [|discriminate H]
  end.

Lemma list_get_Some {A : Type} (l : list A) (i : nat) (x : A) :
  list_get l i = Ok x -> nth_error l i = Some x.
Proof.
  unfold list_get. destruct (nth_error l i); intros H; inversion H.
  reflexivity.
Qed.

Lemma list_set_Ok {A : Type} (l l' : list A) (i : nat) (v : A) :
  list_set l i v = Ok l' -> (i < length l)%nat /\ l' = list_update l i v.
Proof.
  unfold list_set. destruct (Nat.ltb_spec i (length l)) as [Hlt|Hge];
    intros H; inversion H. auto.
Qed.

Lemma list_update_nth_error_same {A : Type} (l : list A) (i : nat) (v : A) :
  (i < length l)%nat -> nth_error (list_update l i v) i = Some v.
Proof.
  revert i. induction l as [|x l IH]; intros [|i] H; cbn in *;
    try lia; [reflexivity|]. apply IH. lia.
Qed.

Lemma list_update_nth_error_other {A : Type} (l : list A) (i j : nat)
  (v : A) :
  i <> j -> nth_error (list_update l i v) j = nth_error l j.
Proof.
  revert i j. induction l as [|x l IH]; intros [|i] [|j] H; cbn;
    try reflexivity; try lia. apply IH. lia.
Qed.

(** The marking loop of the reconciliation. *)
Lemma mark_loop (sup : Sup.Supervisor) (idx : list nat) (o o' : list Q) :
  for_each idx (Sup.mark_on_or_waiting sup) o = Ok o' ->
  length o' = length o
  /\ forall i,
       nth i o' 0
       = if existsb (Nat.eqb i) idx && Sup.stack_powered (Sup.stacks sup) i
         then 1 else nth i o 0.
Proof.
  revert o. induction idx as [|j idx IH]; intros o H; cbn [for_each] in H.
  - inversion H; subst. split; [reflexivity|]. intros i. reflexivity.
  - inv_bind H. destruct (IH _ H) as [Hlen Hnth].
    unfold Sup.mark_on_or_waiting in E. inv_bind E.
    apply list_get_Some in E0.
    assert (Hp : Sup.stack_powered (Sup.stacks sup) j
                 = stack_on a0 || stack_waiting a0).
    { unfold Sup.stack_powered. rewrite E0. reflexivity. }
    destruct (stack_on a0 || stack_waiting a0) eqn:Epow.
    + apply list_set_Ok in E as [Hj ->]. rewrite list_update_length in *.
      split; [exact Hlen|]. intros i. rewrite Hnth. cbn [existsb].
      destruct (Nat.eqb_spec i j) as [->|Hij]; cbn [orb].
      * rewrite Hp. cbn [andb].
        destruct (existsb (Nat.eqb j) idx); cbn [andb];
          [reflexivity|]. rewrite list_update_nth_same by exact Hj.
        reflexivity.
      * rewrite list_update_nth_other by (intros ->; contradiction).
        reflexivity.
    + inversion E; subst. split; [exact Hlen|]. intros i. rewrite Hnth.
      cbn [existsb]. destruct (Nat.eqb_spec i j) as [->|Hij]; cbn [orb];
        [|reflexivity].
      rewrite Hp. rewrite !andb_false_r. reflexivity.
Qed.

Lemma existsb_range (n i : nat) :
  existsb (Nat.eqb i) (range n) = (i <? n)%nat.
Proof.
  unfold range. destruct (Nat.ltb_spec i n) as [H|H].
  - apply existsb_exists. exists i. split; [apply in_seq; lia|].
    apply Nat.eqb_refl.
  - destruct (existsb _ _) eqn:E; [|reflexivity].
    apply existsb_exists in E. destruct E as (x & Hx & Ex).
    apply in_seq in Hx. apply Nat.eqb_eq in Ex. lia.
Qed.

Lemma for_each_preserves {S : Type} (P : S -> Prop) (idx : list nat)
  (body : nat -> S -> result S) :
  (forall i s s', body i s = Ok s' -> P s -> P s') ->
  forall s s', for_each idx body s = Ok s' -> P s -> P s'.
Proof.
  intros Hbody. induction idx as [|i idx IH]; intros s s' H Hs;
    cbn [for_each] in H.
  - inversion H; subst. exact Hs.
  - inv_bind H. apply (IH _ _ H). apply (Hbody _ _ _ E Hs).
Qed.

Section ControlStep.

Variable rf : list Q -> list (Q * Q).

Lemma step_stack_spec (sp : list Q) (i : nat) (acc acc' : Sup.StepAcc) :
  Sup.step_stack rf sp i acc = Ok acc' ->
  Sup.n_stacks (Sup.acc_sup acc') = Sup.n_stacks (Sup.acc_sup acc)
  /\ length (Sup.on_or_waiting acc') = length (Sup.on_or_waiting acc)
  /\ (forall j, j <> i ->
        nth_error (Sup.stacks (Sup.acc_sup acc')) j
        = nth_error (Sup.stacks (Sup.acc_sup acc)) j
        /\ nth j (Sup.on_or_waiting acc') 0
           = nth j (Sup.on_or_waiting acc) 0)
  /\ nth i (Sup.on_or_waiting acc') 0
     = (if Sup.stack_powered (Sup.stacks (Sup.acc_sup acc')) i then 1
        else nth i (Sup.on_or_waiting acc) 0).
Proof.
  intros H. unfold Sup.step_stack in H.
  inv_bind H. inv_bind H.
  destruct (run rf a a0) as [[[H2_mfr H2_mass_i] power_left_i] st].
  inv_bind H. clear E1.
  inv_bind H. destruct a2 as [sup1 oow1].
  assert (H1 : Sup.stacks sup1
               = list_update (Sup.stacks (Sup.acc_sup acc)) i st
               /\ Sup.n_stacks sup1 = Sup.n_stacks (Sup.acc_sup acc)
               /\ length oow1 = length (Sup.on_or_waiting acc)
               /\ (forall j, j <> i ->
                      nth j oow1 0 = nth j (Sup.on_or_waiting acc) 0)
               /\ nth i oow1 0 = (if stack_on st then 1
                                  else nth i (Sup.on_or_waiting acc) 0)).
  { destruct (stack_on st).
    - inv_bind E1. inv_bind E1. inversion E1; subst. clear E1.
      apply list_set_Ok in E3 as [Hi ->].
      rewrite list_update_length.
      repeat split; try reflexivity.
      + intros j Hj. apply list_update_nth_other. congruence.
      + apply list_update_nth_same, Hi.
    - inversion E1; subst. repeat split; reflexivity. }
  clear E1. destruct H1 as (Hst1 & Hn1 & Hl1 & Ho1 & Hi1).
  inv_bind H. destruct a2 as [sup2 oow2].
  assert (H2 : Sup.stacks sup2 = Sup.stacks sup1
               /\ Sup.n_stacks sup2 = Sup.n_stacks sup1
               /\ length oow2 = length oow1
               /\ (forall j, j <> i -> nth j oow2 0 = nth j oow1 0)
               /\ nth i oow2 0 = (if stack_waiting st then 1
                                  else nth i oow1 0)).
  { destruct (stack_waiting st).
    - inv_bind E1. inv_bind E1. inv_bind E1. inversion E1; subst. clear E1.
      apply list_set_Ok in E4 as [Hi ->].
      rewrite list_update_length.
      repeat split; try reflexivity.
      + intros j Hj. apply list_update_nth_other. congruence.
      + apply list_update_nth_same, Hi.
    - inv_bind E1. inv_bind E1. inversion E1; subst.
      repeat split; reflexivity. }
  clear E1. destruct H2 as (Hst2 & Hn2 & Hl2 & Ho2 & Hi2).
  inv_bind H. inversion H; subst. clear H. cbn [Sup.acc_sup Sup.on_or_waiting].
  apply list_get_Some in E.
  assert (Hlt : (i < length (Sup.stacks (Sup.acc_sup acc)))%nat).
  { apply nth_error_Some. congruence. }
  split; [congruence|]. split; [congruence|]. split.
  - intros j Hj. split.
    + rewrite Hst2, Hst1. apply list_update_nth_error_other. congruence.
    + rewrite Ho2, Ho1 by assumption. reflexivity.
  - unfold Sup.stack_powered. rewrite Hst2, Hst1.
    rewrite list_update_nth_error_same by exact Hlt.
    unfold powered. rewrite Hi2, Hi1.
    destruct (stack_on st), (stack_waiting st); reflexivity.
Qed.

(** The loop that steps the stacks: every position is visited once. *)
Lemma step_loop (sp : list Q) (idx : list nat) (acc acc' : Sup.StepAcc) :
  NoDup idx ->
  for_each idx (Sup.step_stack rf sp) acc = Ok acc' ->
  Sup.n_stacks (Sup.acc_sup acc') = Sup.n_stacks (Sup.acc_sup acc)
  /\ length (Sup.on_or_waiting acc') = length (Sup.on_or_waiting acc)
  /\ (forall i, ~ In i idx ->
        nth_error (Sup.stacks (Sup.acc_sup acc')) i
        = nth_error (Sup.stacks (Sup.acc_sup acc)) i
        /\ nth i (Sup.on_or_waiting acc') 0
           = nth i (Sup.on_or_waiting acc) 0)
  /\ (forall i, In i idx ->
        nth i (Sup.on_or_waiting acc') 0
        = (if Sup.stack_powered (Sup.stacks (Sup.acc_sup acc')) i then 1
           else nth i (Sup.on_or_waiting acc) 0)).
Proof.
  intros Hnd. revert acc. induction Hnd as [|j idx Hj Hnd IH]; intros acc H;
    cbn [for_each] in H.
  - inversion H; subst. repeat split; try reflexivity. intros i [].
  - inv_bind H.
    destruct (step_stack_spec _ _ _ _ E) as (Sn & Sl & Sother & Sself).
    destruct (IH _ H) as (Ln & Ll & Lout & Lin).
    split; [congruence|]. split; [congruence|]. split.
    + intros i Hi.
      assert (i <> j) by (intros ->; apply Hi; left; reflexivity).
      assert (~ In i idx) by (intros Hm; apply Hi; right; exact Hm).
      destruct (Lout i) as [A B]; [assumption|].
      destruct (Sother i) as [C D]; [assumption|].
      split; congruence.
    + intros i [<-|Hi].
      * destruct (Lout j Hj) as [A B]. rewrite B.
        unfold Sup.stack_powered in *. rewrite A. exact Sself.
      * rewrite (Lin i Hi).
        assert (i <> j) by (intros ->; contradiction).
        destruct (Sother i) as [C D]; [assumption|].
        rewrite D. reflexivity.
Qed.

Lemma update_stack_n_stacks (i : nat) (f : Stack -> Stack)
  (sup sup' : Sup.Supervisor) :
  Sup.update_stack i f sup = Ok sup' ->
  Sup.n_stacks sup' = Sup.n_stacks sup.
Proof.
  unfold Sup.update_stack. intros H. inv_bind H. inversion H; subst.
  reflexivity.
Qed.

(** The reconciliation marks the stacks that are on or waiting when it
    starts, and leaves the number of stacks alone. *)
Lemma reconcile_spec (sup sup' : Sup.Supervisor) (o o' : list Q) :
  Sup.reconcile sup o = Ok (sup', o') ->
  Sup.n_stacks sup' = Sup.n_stacks sup
  /\ length o' = length o
  /\ forall i,
       nth i o' 0
       = if (i <? Sup.n_stacks sup)%nat
            && Sup.stack_powered (Sup.stacks sup) i
         then 1 else nth i o 0.
Proof.
  unfold Sup.reconcile. intros H. inv_bind H. inv_bind H. inv_bind H.
  inversion H; subst. clear H.
  destruct (mark_loop _ _ _ _ E) as [Hlen Hnth].
  assert (Ha : Sup.n_stacks a0 = Sup.n_stacks sup).
  { refine (for_each_preserves
              (fun s => Sup.n_stacks s = Sup.n_stacks sup) _ _ _ _ _ E0
              eq_refl).
    intros i s s' Hb Hs. unfold Sup.resolve_mismatch in Hb. inv_bind Hb.
    destruct (Qeq_bool a 1);
      [rewrite (update_stack_n_stacks _ _ _ _ Hb); exact Hs|].
    destruct (Qeq_bool a 0); [inversion Hb; subst; exact Hs|].
    destruct (Qeq_bool a (-1));
      [rewrite (update_stack_n_stacks _ _ _ _ Hb); exact Hs
      |inversion Hb; subst; exact Hs]. }
  assert (Hb : Sup.n_stacks sup' = Sup.n_stacks a0).
  { refine (for_each_preserves
              (fun s => Sup.n_stacks s = Sup.n_stacks a0) _ _ _ _ _ E1
              eq_refl).
    intros i s s' Hr Hs. unfold Sup.refresh_waiting in Hr.
    inv_bind Hr. inv_bind Hr. inversion Hr; subst. exact Hs. }
  split; [congruence|]. split; [exact Hlen|].
  intros i. rewrite Hnth, existsb_range. reflexivity.
Qed.

Lemma Qmax_balance (P dot : Q) : dot + Qmax 0 (P - dot) == Qmax P dot.
Proof.
  destruct (Qlt_le_dec P dot) as [Hlt|Hle].
  - rewrite (Q.max_l 0 (P - dot)) by lra.
    rewrite (Q.max_r P dot) by lra. ring.
  - rewrite (Q.max_r 0 (P - dot)) by lra.
    rewrite (Q.max_l P dot) by lra. ring.
Qed.

(** What [control] computes once the policy has fixed [stack_power]. *)
Lemma control_step_balance (deg : bool) (power_in : Q) (stack_power : list Q)
  (sup sup' : Sup.Supervisor) (H2_mass : Q) (mfr : list Q)
  (unconsumed curtailed : Q) :
  Sup.control_step rf deg power_in stack_power sup
  = Ok ((H2_mass, mfr, unconsumed, curtailed), sup') ->
  exists on_or_waiting,
    length on_or_waiting = Sup.n_stacks sup
    /\ length stack_power = Sup.n_stacks sup
    /\ (forall i, (i < Sup.n_stacks sup)%nat ->
          nth i on_or_waiting 0
          = if Sup.counted deg (Sup.stacks sup) (Sup.stacks sup') i
            then 1 else 0)
    /\ curtailed = Qmax 0 (power_in - Qdot on_or_waiting stack_power)
    /\ Qdot on_or_waiting stack_power + curtailed
       == Qmax power_in (Qdot on_or_waiting stack_power).
Proof.
  unfold Sup.control_step. intros H. inv_bind H. destruct a as [sup_r o1].
  inv_bind H. inv_bind H. inversion H; subst. clear H.
  assert (Hrec : Sup.n_stacks sup_r = Sup.n_stacks sup
                 /\ length o1 = Sup.n_stacks sup
                 /\ forall i,
                      nth i o1 0
                      = if deg && ((i <? Sup.n_stacks sup)%nat
                                   && Sup.stack_powered (Sup.stacks sup) i)
                        then 1 else 0).
  { destruct deg.
    - destruct (reconcile_spec _ _ _ _ E) as (Hn & Hl & Hnth).
      unfold zeros in Hl. rewrite repeat_length in Hl.
      split; [exact Hn|]. split; [exact Hl|].
      intros i. rewrite Hnth, nth_zeros. reflexivity.
    - inversion E; subst. unfold zeros. rewrite repeat_length.
      repeat split. intros i. apply nth_zeros. }
  destruct Hrec as (Hn & Hl & Hnth).
  destruct (step_loop stack_power _ _ _ (seq_NoDup _ 0) E0)
    as (Sn & Sl & _ & Sin).
  cbn [Sup.acc_sup Sup.on_or_waiting Sup.n_stacks Sup.set_stacks_on
       Sup.set_stacks_waiting] in Sn, Sl, Sin.
  destruct (Nat.eqb_spec (length (Sup.on_or_waiting a))
                         (length stack_power)) as [Hlen|Hlen];
    [|discriminate E1].
  inversion E1; subst. clear E1.
  exists (Sup.on_or_waiting a).
  split; [congruence|]. split; [congruence|]. split; [|split].
  - intros i Hi. rewrite Sin.
    + rewrite Hnth. unfold Sup.counted.
      apply Nat.ltb_lt in Hi. rewrite Hi. cbn [andb].
      destruct (Sup.stack_powered (Sup.stacks (Sup.acc_sup a)) i);
        [rewrite orb_true_r; reflexivity|].
      rewrite orb_false_r. reflexivity.
    + unfold range. apply in_seq.
      cbn [Sup.n_stacks Sup.set_stacks_on Sup.set_stacks_waiting]. lia.
  - reflexivity.
  - apply Qmax_balance.
Qed.

End ControlStep.

(** Sums of lists that agree entry by entry. *)
Lemma fold_left_Qplus_ext (l1 l2 : list Q) (a1 a2 : Q) :
  a1 == a2 -> Forall2 Qeq l1 l2 ->
  fold_left Qplus l1 a1 == fold_left Qplus l2 a2.
Proof.
  intros Ha H. revert a1 a2 Ha.
  induction H as [|x y l1 l2 Hxy Hl IH]; intros a1 a2 Ha; cbn.
  - exact Ha.
  - apply IH. rewrite Ha, Hxy. reflexivity.
Qed.

Lemma Forall2_nth_Qeq (l1 l2 : list Q) :
  length l1 = length l2 ->
  (forall i, (i < length l1)%nat -> nth i l1 0 == nth i l2 0) ->
  Forall2 Qeq l1 l2.
Proof.
  revert l2. induction l1 as [|x l1 IH]; intros [|y l2] Hlen Hnth;
    cbn in Hlen; try discriminate; constructor.
  - apply (Hnth 0%nat). cbn. lia.
  - apply IH; [lia|]. intros i Hi. apply (Hnth (S i)). cbn. lia.
Qed.

Lemma Qdot_indicator (sel : nat -> bool) (oow sp : list Q) :
  length oow = length sp ->
  (forall i, (i < length sp)%nat ->
             nth i oow 0 = if sel i then 1 else 0) ->
  Qdot oow sp == Sup.allocated_where sel sp.
Proof.
  intros Hlen Hnth. unfold Qdot, Sup.allocated_where, Qsum.
  apply fold_left_Qplus_ext; [reflexivity|].
  apply Forall2_nth_Qeq.
  - rewrite !length_map, length_combine, Hlen, Nat.min_id.
    unfold range. rewrite length_seq. reflexivity.
  - intros i Hi.
    rewrite length_map, length_combine, Hlen, Nat.min_id in Hi.
    set (g := fun i : nat => if sel i then nth i sp 0 else 0).
    set (h := fun p : Q * Q => fst p * snd p).
    assert (L : nth i (map h (combine oow sp)) 0 = nth i oow 0 * nth i sp 0).
    { rewrite (nth_indep _ 0 (h (0, 0)))
        by (rewrite length_map, length_combine, Hlen, Nat.min_id; exact Hi).
      rewrite (map_nth h), combine_nth by exact Hlen. reflexivity. }
    assert (R : nth i (map g (range (length sp))) 0 = g i).
    { rewrite (nth_indep _ 0 (g 0%nat))
        by (rewrite length_map; unfold range; rewrite length_seq; exact Hi).
      rewrite (map_nth g). unfold range. rewrite seq_nth by exact Hi.
      reflexivity. }
    rewrite L, R. unfold g.
    rewrite (Hnth i Hi). destruct (sel i); ring.
Qed.

(** C2 (as stated, refuted).  Baseline policy, two stacks rated 500 kW, all
    off, 600 kW of input.  The policy turns stack 0 on and allocates
    500 kW to it and the remaining 100 kW to stack 1, which stays off.
    Stack 0 is the only one on or waiting: 500 kW allocated.  The
    supervisor returns 100 kW of unconsumed power (what the off stack hands
    back) and 100 kW of curtailed power, so the sum is 700 kW, not the
    600 kW that came in. *)
Lemma power_balance_counterexample :
  exists stack_power c sup1 H2_mass mfr unconsumed curtailed sup',
    Sup.allocate Sup.baseline_policy 600000
      (Sup.new_supervisor 2 500 (example_params 1))
    = Ok (stack_power, c, sup1)
    /\ Sup.control half_cycle_rainflow Sup.baseline_policy 600000
         (Sup.new_supervisor 2 500 (example_params 1))
       = Ok ((H2_mass, mfr, unconsumed, curtailed), sup')
    /\ map powered (Sup.stacks sup') = [true; false]
    /\ Sup.allocated_where (Sup.stack_powered (Sup.stacks sup')) stack_power
       == 500000
    /\ unconsumed == 100000
    /\ curtailed == 100000
    /\ ~ Sup.allocated_where (Sup.stack_powered (Sup.stacks sup'))
           stack_power
         + unconsumed + curtailed == 600000.
Proof.
  destruct (Sup.allocate Sup.baseline_policy 600000
              (Sup.new_supervisor 2 500 (example_params 1)))
    as [[[stack_power c] sup1]|e] eqn:E1; [|vm_compute in E1; discriminate].
  destruct (Sup.control half_cycle_rainflow Sup.baseline_policy 600000
              (Sup.new_supervisor 2 500 (example_params 1)))
    as [[[[[H2_mass mfr] unconsumed] curtailed] sup']|e] eqn:E2;
    [|vm_compute in E2; discriminate].
  exists stack_power, c, sup1, H2_mass, mfr, unconsumed, curtailed, sup'.
  split; [reflexivity|]. split; [reflexivity|].
  vm_compute in E1. vm_compute in E2.
  inversion E1; subst. inversion E2; subst. clear E1 E2.
  split; [reflexivity|]. split; [reflexivity|]. split; [reflexivity|].
  split; [reflexivity|]. vm_compute. discriminate.
Qed.

(** C2 (amended).  For every policy and every time step on which
    [control(power_in)] returns: the power allocated to the stacks that
    the supervisor counts as on or waiting (on or waiting after their run,
    or, for a "deg" policy, when the reconciliation started), plus the
    returned [curtailed_power], equals [max(power_in, that allocation)],
    and [curtailed_power] is [max(0, power_in - that allocation)]; so the
    two add up to [power_in] whenever the allocation does not exceed it.
    The unconsumed power is not part of this balance. *)
Theorem power_balance (rf : list Q -> list (Q * Q)) (policy : Sup.Policy)
  (power_in : Q) (sup sup1 sup' : Sup.Supervisor) (stack_power mfr : list Q)
  (c H2_mass unconsumed curtailed : Q) :
  Sup.allocate policy power_in sup = Ok (stack_power, c, sup1) ->
  Sup.control rf policy power_in sup
  = Ok ((H2_mass, mfr, unconsumed, curtailed), sup') ->
  let allocated :=
    Sup.allocated_where
      (Sup.counted (Sup.is_deg policy) (Sup.stacks sup1) (Sup.stacks sup'))
      stack_power in
  length stack_power = Sup.n_stacks sup1
  /\ curtailed == Qmax 0 (power_in - allocated)
  /\ allocated + curtailed == Qmax power_in allocated
  /\ (allocated <= power_in -> allocated + curtailed == power_in).
Proof.
  intros Halloc Hctl allocated. unfold Sup.control in Hctl.
  rewrite Halloc in Hctl. cbn [bind] in Hctl.
  destruct (control_step_balance rf _ _ _ _ _ _ _ _ _ Hctl)
    as (oow & Hlo & Hls & Hnth & Hc & _).
  assert (Hdot : Qdot oow stack_power == allocated).
  { apply Qdot_indicator; [congruence|].
    intros i Hi. apply Hnth. lia. }
  assert (Hcur : curtailed == Qmax 0 (power_in - allocated)).
  { rewrite Hc. destruct (Qlt_le_dec power_in allocated) as [Hlt|Hle].
    - rewrite (Q.max_l 0 (power_in - allocated)) by lra.
      apply Q.max_l. lra.
    - rewrite (Q.max_r 0 (power_in - allocated)) by lra.
      rewrite (Q.max_r 0 (power_in - Qdot oow stack_power)) by lra. lra. }
  split; [exact Hls|]. split; [exact Hcur|]. split.
  - rewrite Hcur. apply Qmax_balance.
  - intros Hle. rewrite Hcur.
    rewrite (Q.max_r 0 (power_in - allocated)) by lra. ring.
Qed.

Lemma power_balance_witness :
  exists stack_power c sup1 H2_mass mfr unconsumed curtailed sup',
    Sup.allocate Sup.baseline_policy 600000
      (Sup.new_supervisor 2 500 (example_params 1))
    = Ok (stack_power, c, sup1)
    /\ Sup.control half_cycle_rainflow Sup.baseline_policy 600000
         (Sup.new_supervisor 2 500 (example_params 1))
       = Ok ((H2_mass, mfr, unconsumed, curtailed), sup')
    /\ let allocated :=
         Sup.allocated_where
           (Sup.counted (Sup.is_deg Sup.baseline_policy) (Sup.stacks sup1)
              (Sup.stacks sup'))
           stack_power in
       length stack_power = Sup.n_stacks sup1
       /\ curtailed == Qmax 0 (600000 - allocated)
       /\ allocated + curtailed == Qmax 600000 allocated
       /\ (allocated <= 600000 -> allocated + curtailed == 600000).
Proof.
  destruct (Sup.allocate Sup.baseline_policy 600000
              (Sup.new_supervisor 2 500 (example_params 1)))
    as [[[stack_power c] sup1]|e] eqn:E1; [|vm_compute in E1; discriminate].
  destruct (Sup.control half_cycle_rainflow Sup.baseline_policy 600000
              (Sup.new_supervisor 2 500 (example_params 1)))
    as [[[[[H2_mass mfr] unconsumed] curtailed] sup']|e] eqn:E2;
    [|vm_compute in E2; discriminate].
  exists stack_power, c, sup1, H2_mass, mfr, unconsumed, curtailed, sup'.
  split; [reflexivity|]. split; [reflexivity|].
  exact (power_balance half_cycle_rainflow Sup.baseline_policy 600000 _ _ _
           _ _ _ _ _ _ E1 E2).
Defined.
